(** * nrdp-micro: the stale-aware Nagios configuration generator

    A shallow embedding of the ledger store (package [db]) and of the
    regeneration cycle (package [nagios_config], [Generator.generateConfigs]),
    with the properties the specification states about them.

    Conventions of the embedding:
    - a Go [string] and a byte slice are a [string], a list of 8-bit
      characters;
    - [time.Time] is the number of nanoseconds since the Unix epoch, a
      [time.Duration] is a signed 64-bit count of nanoseconds;
    - a SQL table with a primary key is a finite map from the key to the
      remaining column;
    - every call that can fail in the source takes the outcome chosen by the
      outside world (the SQL driver, the file system, the receiving goroutine)
      as an explicit argument; one cycle runs against the ledger without
      concurrent ingestion;
    - calls to the logger are not modelled: they change nothing the
      properties below can observe. *)

From Stdlib Require Import ZArith Uint63 PrimFloat FloatOps SpecFloat.
From stdpp Require Import base strings gmap list sorting pretty.

#[local] Set Warnings "-clear-no-such-hyp".
Local Open Scope Z_scope.

(** ** What the generator uses of the Go standard library *)

Module Go.

Definition error : Type := string.

(** The line feed written [\n] in the Go source. *)
Definition nl : string := String (Ascii.ascii_of_nat 10) EmptyString.

(** *** Strings: [<] on Go strings is the bytewise lexicographic order *)

Definition string_less (a b : string) : bool := String.ltb a b.

(** [string_le a b]: [a] is not after [b] in that order. *)
Definition string_le (a b : string) : Prop := string_less b a = false.

(** *** [sort.Slice]

    [sort.Slice] is an in-place comparison sort that does not promise
    stability.  On slices of at most twelve elements the Go runtime runs
    an insertion sort, which is stable and returns what the function
    below returns; on longer ones it runs a pattern-defeating quicksort.
    Whenever the keys of the slice are pairwise distinct, every
    comparison sort returns the same slice ([sort_Slice_unique] below),
    and that is the case for every slice the generator sorts: they come
    from tables with a primary key. *)

Section sort.
Context {A : Type} (less : A → A → bool).

Fixpoint insert (x : A) (l : list A) : list A :=
  match l with
  | [] => [x]
  | y :: l' => if less y x then y :: insert x l' else x :: y :: l'
  end.

Fixpoint sort_Slice (l : list A) : list A :=
  match l with
  | [] => []
  | x :: l' => insert x (sort_Slice l')
  end.

(** [a] may stand before [b] in a sorted slice: [b] is not less than [a]. *)
Definition ordered (a b : A) : Prop := less b a = false.
End sort.

(** The [less] function that compares a string field. *)
Definition less_by {A : Type} (key : A → string) (a b : A) : bool :=
  string_less (key a) (key b).

(** *** 64-bit integers *)

Definition wrap64 (z : Z) : Z := (z + 2 ^ 63) mod 2 ^ 64 - 2 ^ 63.

Definition MinInt64 : Z := - 2 ^ 63.
Definition MaxInt64 : Z := 2 ^ 63 - 1.

(** *** Package [time] *)

Definition Duration : Type := Z.
Definition Time : Type := Z.

Definition Second : Duration := 1000000000.

(** Unary minus on a [Duration], an [int64]. *)
Definition Duration_neg (d : Duration) : Duration := wrap64 (- d).

Definition Time_Add (t : Time) (d : Duration) : Time := t + d.

(** [t.Unix()]: whole seconds since the epoch, rounded down. *)
Definition Time_Unix (t : Time) : Z := t `div` Second.

(** [time.Unix(sec, nsec)]. *)
Definition time_Unix (sec nsec : Z) : Time := sec * Second + nsec.

(** Conversion [float64(n)] of an [int64]. *)
Definition float64_of_int64 (n : Z) : float :=
  if n <? 0 then PrimFloat.opp (PrimFloat.of_uint63 (Uint63.of_Z (- n)))
  else PrimFloat.of_uint63 (Uint63.of_Z n).

(** Conversion [int(x)] of a finite [float64]: the fraction is dropped. *)
Definition int_of_float64 (x : float) : Z :=
  match Prim2SF x with
  | S754_finite s m e =>
      let mag := if 0 <=? e then Z.pos m * 2 ^ e else Z.pos m `div` 2 ^ (- e) in
      if s then - mag else mag
  | _ => 0
  end.

(** [d.Seconds()]:
    [sec := d / Second; nsec := d % Second;
     return float64(sec) + float64(nsec)/1e9]. *)
Definition Duration_Seconds (d : Duration) : float :=
  let sec := d `quot` Second in
  let nsec := d `rem` Second in
  PrimFloat.add (float64_of_int64 sec)
                (PrimFloat.div (float64_of_int64 nsec) 1e9%float).

(** [fmt.Sprintf("%d", n)]. *)
Definition Sprintf_d (n : Z) : string := pretty n.

(** *** Package [path/filepath]

    A path is kept as the directory and the name joined by
    [filepath.Join]; the textual cleaning [Join] performs is not
    modelled. *)

Abbreviation Path := (string * string)%type.
Definition filepath_Join (dir name : string) : Path := (dir, name).
Definition filepath_Dir (p : Path) : string := p.1.

(** *** Package [bytes] *)

Definition bytes_Equal (a b : string) : bool := bool_decide (a = b).

End Go.

(** ** Package [db]: the ledger of last-seen times *)

Module db.
Import Go.

(** [Host] represents a row in the hosts table. *)
Record Host : Type := mkHost {
  Host_Hostname : string;
  Host_LastSeen : Time
}.

(** [Service] represents a row in the services table. *)
Record Service : Type := mkService {
  Service_Hostname : string;
  Service_ServiceDescription : string;
  Service_LastSeen : Time
}.

(** The database behind a [Manager]:
    [hosts (hostname TEXT PRIMARY KEY, last_seen INTEGER NOT NULL)] and
    [services (hostname, service_description, last_seen,
               PRIMARY KEY (hostname, service_description))]. *)
Record Manager : Type := mkManager {
  hosts : gmap string Z;
  services : gmap (string * string) Z
}.

(** How the driver answers a [DELETE]: it runs and reports the affected
    rows, the statement fails, or it runs and [RowsAffected] fails. *)
Inductive ExecFault : Type :=
| ExecOk
| ExecFails
| RowsAffectedFails.

(** [UpdateHost]: [INSERT ... ON CONFLICT(hostname) DO UPDATE SET
    last_seen = excluded.last_seen]. *)
Definition UpdateHost (fails : bool) (m : Manager)
    (hostname : string) (lastSeen : Time) : Manager * option error :=
  let unixTime := Time_Unix lastSeen in
  if fails then (m, Some ("failed to update host " +:+ hostname))
  else (mkManager (<[hostname := unixTime]> (hosts m)) (services m), None).

(** [UpdateService]: the same on the composite key. *)
Definition UpdateService (fails : bool) (m : Manager)
    (hostname serviceDescription : string) (lastSeen : Time)
    : Manager * option error :=
  let unixTime := Time_Unix lastSeen in
  if fails then (m, Some ("failed to update service '" +:+ serviceDescription
                            +:+ "' on host " +:+ hostname))
  else (mkManager (hosts m)
          (<[(hostname, serviceDescription) := unixTime]> (services m)), None).

(** [ORDER BY hostname] under SQLite's default [BINARY] collation. *)
Definition host_row_less (r1 r2 : string * Z) : bool :=
  string_less r1.1 r2.1.

(** [ORDER BY hostname, service_description]. *)
Definition service_row_less (r1 r2 : (string * string) * Z) : bool :=
  string_less r1.1.1 r2.1.1
  || (bool_decide (r1.1.1 = r2.1.1) && string_less r1.1.2 r2.1.2).

Definition host_of_row (r : string * Z) : Host :=
  mkHost r.1 (time_Unix r.2 0).

Definition service_of_row (r : (string * string) * Z) : Service :=
  mkService r.1.1 r.1.2 (time_Unix r.2 0).

(** [GetAllHosts]: [SELECT hostname, last_seen FROM hosts ORDER BY
    hostname]. *)
Definition GetAllHosts (fails : bool) (m : Manager)
    : list Host * option error :=
  if fails then ([], Some "failed to query hosts"%string)
  else (host_of_row <$> sort_Slice host_row_less (map_to_list (hosts m)),
        None).

(** [GetAllServices]: [SELECT ... FROM services ORDER BY hostname,
    service_description]. *)
Definition GetAllServices (fails : bool) (m : Manager)
    : list Service * option error :=
  if fails then ([], Some "failed to query services"%string)
  else (service_of_row <$>
          sort_Slice service_row_less (map_to_list (services m)),
        None).

(** The rows a [DELETE ... WHERE last_seen < ?] removes and keeps. *)
Definition stale {K} `{Countable K} (cutoff : Z) (t : gmap K Z) : gmap K Z :=
  filter (λ r, r.2 < cutoff) t.
Definition fresh {K} `{Countable K} (cutoff : Z) (t : gmap K Z) : gmap K Z :=
  filter (λ r, ¬ r.2 < cutoff) t.

(** [DeleteStaleHosts]: [DELETE FROM hosts WHERE last_seen < ?] with
    [threshold.Unix()]. *)
Definition DeleteStaleHosts (fault : ExecFault) (m : Manager)
    (threshold : Time) : Manager * (Z * option error) :=
  match fault with
  | ExecFails =>
      (m, (0, Some "failed to execute delete stale hosts query"%string))
  | RowsAffectedFails =>
      (mkManager (fresh (Time_Unix threshold) (hosts m)) (services m),
       (0, None))
  | ExecOk =>
      let rowsAffected :=
        Z.of_nat (size (stale (Time_Unix threshold) (hosts m))) in
      (mkManager (fresh (Time_Unix threshold) (hosts m)) (services m),
       (rowsAffected, None))
  end.

(** [DeleteStaleServices]: [DELETE FROM services WHERE last_seen < ?]. *)
Definition DeleteStaleServices (fault : ExecFault) (m : Manager)
    (threshold : Time) : Manager * (Z * option error) :=
  match fault with
  | ExecFails =>
      (m, (0, Some "failed to execute delete stale services query"%string))
  | RowsAffectedFails =>
      (mkManager (hosts m) (fresh (Time_Unix threshold) (services m)),
       (0, None))
  | ExecOk =>
      let rowsAffected :=
        Z.of_nat (size (stale (Time_Unix threshold) (services m))) in
      (mkManager (hosts m) (fresh (Time_Unix threshold) (services m)),
       (rowsAffected, None))
  end.

End db.

(** ** Package [nagios_config]: the regeneration cycle *)

Module nagios_config.
Import Go db.

(** [config.NagiosConfig]. *)
Record NagiosConfig : Type := mkNagiosConfig {
  OutputDir : string;
  HostTemplate : string;
  ServiceTemplate : string;
  GenerationInterval : string;
  StaleThreshold : string;
  ReloadCommand : string
}.

(** [Generator], with the two durations [NewGenerator] parsed.  The
    database handle and [ReloadChan] are part of the world the cycle
    runs in. *)
Record Generator : Type := mkGenerator {
  config : NagiosConfig;
  interval : Duration;
  staleThreshold : Duration
}.

(** *** The file system and the reload channel *)

Abbreviation FS := (gmap Path string).

(** How [ioutil.WriteFile] ends: it writes everything, it cannot open the
    file, or it stops after the first [n] bytes. *)
Inductive WriteFault : Type :=
| WriteOk
| OpenFails
| ShortWrite (n : nat).

(** How [ioutil.ReadFile] ends on a file that exists: it reads
    everything, or it fails after the first [n] bytes ([n] is 0 when the
    file cannot be opened). *)
Inductive ReadFault : Type :=
| ReadOk
| ReadFails (n : nat).

(** [ioutil.ReadFile]: the bytes read and the error, if any; the flag is
    [errors.Is(err, os.ErrNotExist)].  A file that does not exist reads as
    no bytes. *)
Definition ReadFile (fault : ReadFault) (name : Path) (fs : FS)
    : string * option (error * bool) :=
  match fs !! name with
  | None => (EmptyString, Some ("file does not exist"%string, true))
  | Some content =>
      match fault with
      | ReadOk => (content, None)
      | ReadFails n =>
          (String.substring 0 n content, Some ("read error"%string, false))
      end
  end.

(** [ioutil.WriteFile(name, data, 0644)]: create or truncate, write,
    close. *)
Definition WriteFile (fault : WriteFault) (name : Path) (data : string)
    (fs : FS) : FS * option error :=
  match fault with
  | WriteOk => (<[name := data]> fs, None)
  | OpenFails => (fs, Some "open failed"%string)
  | ShortWrite n =>
      (<[name := String.substring 0 n data]> fs, Some "short write"%string)
  end.

(** [os.Rename(oldpath, newpath)]: on success [newpath] holds what
    [oldpath] held and [oldpath] is gone; on failure nothing changes. *)
Definition Rename (fails : bool) (oldpath newpath : Path) (fs : FS)
    : FS * option error :=
  if fails then (fs, Some "rename failed"%string)
  else match fs !! oldpath with
       | Some content => (<[newpath := content]> (delete oldpath fs), None)
       | None => (fs, Some "file does not exist"%string)
       end.

(** [os.Remove(name)]. *)
Definition Remove (fails : bool) (name : Path) (fs : FS)
    : FS * option error :=
  if fails then (fs, Some "remove failed"%string)
  else match fs !! name with
       | Some _ => (delete name fs, None)
       | None => (fs, Some "file does not exist"%string)
       end.

(** What one cycle does to the file system and to [ReloadChan], in
    program order.  [EvSend true] is a signal taken by the receiver,
    [EvSend false] is the [default] branch of the [select]. *)
Inductive Event : Type :=
| EvWriteFile (name : Path) (data : string)
| EvRename (oldpath newpath : Path)
| EvRemove (name : Path)
| EvSend (delivered : bool).

(** Where the cycle returned. *)
Inductive Outcome : Type :=
| HostFetchFailed
| ServiceFetchFailed
| NothingActive
| Identical
| WriteFailed
| RenameFailed
| Updated.

(** What the outside world answers during one cycle. *)
Record Env : Type := mkEnv {
  now : Time;
  delete_hosts_fault : ExecFault;
  delete_services_fault : ExecFault;
  get_hosts_fails : bool;
  get_services_fails : bool;
  read_fault : ReadFault;
  write_fault : WriteFault;
  rename_fails : bool;
  remove_fails : bool;
  receiver_ready : bool
}.

Record World : Type := mkWorld {
  w_db : Manager;
  w_fs : FS
}.

Record Result : Type := mkResult {
  r_world : World;
  r_events : list Event;
  r_outcome : Outcome
}.

(** *** Rendering (step 3 of [generateConfigs]) *)

(** [servicesByHost[s.Hostname] = append(servicesByHost[s.Hostname], s)]
    for every fetched service, in order. *)
Definition servicesByHost (services : list Service)
    : gmap string (list Service) :=
  fold_left
    (λ m s, <[Service_Hostname s :=
                default [] (m !! Service_Hostname s) ++ [s]]> m)
    services ∅.

Definition host_less (a b : Host) : bool :=
  string_less (Host_Hostname a) (Host_Hostname b).

Definition service_less (a b : Service) : bool :=
  string_less (Service_ServiceDescription a) (Service_ServiceDescription b).

(** [buffer.WriteString(s)]. *)
Definition WriteString (buffer s : string) : string := buffer +:+ s.

Definition write_host (g : Generator) (buffer : string) (h : Host) : string :=
  let buffer := WriteString buffer ("define host {" +:+ nl) in
  let buffer := WriteString buffer
    ("    use                 " +:+ HostTemplate (config g) +:+ nl) in
  let buffer := WriteString buffer
    ("    host_name           " +:+ Host_Hostname h +:+ nl) in
  let buffer := WriteString buffer
    ("    alias               " +:+ Host_Hostname h +:+ nl) in
  WriteString buffer ("}" +:+ nl +:+ nl).

Definition write_service (g : Generator) (buffer : string) (s : Service)
    : string :=
  let buffer := WriteString buffer ("define service {" +:+ nl) in
  let buffer := WriteString buffer
    ("    use                     " +:+ ServiceTemplate (config g) +:+ nl) in
  let buffer := WriteString buffer
    ("    host_name               " +:+ Service_Hostname s +:+ nl) in
  let buffer := WriteString buffer
    ("    service_description     " +:+ Service_ServiceDescription s
       +:+ nl) in
  let buffer := WriteString buffer
    ("    check_command           check_dummy!0!OK" +:+ nl) in
  let buffer := WriteString buffer
    ("    active_checks_enabled   0" +:+ nl) in
  let buffer := WriteString buffer
    ("    passive_checks_enabled  1" +:+ nl) in
  let buffer := WriteString buffer
    ("    check_freshness         1" +:+ nl) in
  let buffer := WriteString buffer
    ("    freshness_threshold     "
       +:+ Sprintf_d (int_of_float64 (Duration_Seconds (staleThreshold g)))
       +:+ nl) in
  let buffer := WriteString buffer
    ("    notification_interval   0" +:+ nl) in
  WriteString buffer ("}" +:+ nl +:+ nl).

(** The body of [for _, h := range hosts]. *)
Definition write_host_and_services (g : Generator)
    (byHost : gmap string (list Service)) (buffer : string) (h : Host)
    : string :=
  let buffer := write_host g buffer h in
  match byHost !! Host_Hostname h with
  | Some hostServices =>
      fold_left (write_service g) (sort_Slice service_less hostServices)
                buffer
  | None => buffer
  end.

(** The bytes of the buffer after the loop over the sorted hosts. *)
Definition render (g : Generator) (hosts : list Host)
    (services : list Service) : string :=
  let byHost := servicesByHost services in
  let hosts := sort_Slice host_less hosts in
  fold_left (write_host_and_services g byHost) hosts EmptyString.

(** *** The rendered text as a sequence of definition blocks *)

(** One object definition of the generated file. *)
Inductive Block : Type :=
| HostDef (h : Host)
| ServiceDef (s : Service).

Definition block_text (g : Generator) (b : Block) : string :=
  match b with
  | HostDef h => write_host g EmptyString h
  | ServiceDef s => write_service g EmptyString s
  end.

(** The blocks one iteration of the loop over the hosts writes. *)
Definition host_blocks (byHost : gmap string (list Service)) (h : Host)
    : list Block :=
  HostDef h ::
  match byHost !! Host_Hostname h with
  | Some hostServices => ServiceDef <$> sort_Slice service_less hostServices
  | None => []
  end.

(** The blocks of one render, in the order they are written. *)
Definition emitted (hosts : list Host) (services : list Service)
    : list Block :=
  sort_Slice host_less hosts ≫= host_blocks (servicesByHost services).

Definition concat_strings (l : list string) : string :=
  foldr String.append EmptyString l.

(** The host the block is written for, and the key of the row it is
    written from. *)
Definition block_host (b : Block) : string :=
  match b with
  | HostDef h => Host_Hostname h
  | ServiceDef s => Service_Hostname s
  end.

Definition block_key (b : Block) : string + string * string :=
  match b with
  | HostDef h => inl (Host_Hostname h)
  | ServiceDef s => inr (Service_Hostname s, Service_ServiceDescription s)
  end.

(** The hostnames of the host blocks, in order. *)
Definition emitted_hostnames (bs : list Block) : list string :=
  omap (λ b, match b with
             | HostDef h => Some (Host_Hostname h)
             | ServiceDef _ => None
             end) bs.

(** The descriptions of the service blocks of one host, in order. *)
Definition emitted_descriptions (hostname : string) (bs : list Block)
    : list string :=
  omap (λ b, match b with
             | ServiceDef s =>
                 if bool_decide (Service_Hostname s = hostname)
                 then Some (Service_ServiceDescription s) else None
             | HostDef _ => None
             end) bs.

(** *** The service definition as the specification words it

    An object definition is [define <kind> {], one line per directive
    (four spaces, the directive name padded to a fixed column, the value)
    and a closing brace followed by an empty line. *)

Definition spaces (n : nat) : string :=
  Nat.iter n (String (Ascii.ascii_of_nat 32)) EmptyString.

Definition directive_line (width : nat) (d : string * string) : string :=
  "    " +:+ d.1 +:+ spaces (width - String.length d.1) +:+ d.2 +:+ nl.

Definition object_definition (kind : string) (width : nat)
    (directives : list (string * string)) : string :=
  "define " +:+ kind +:+ " {" +:+ nl
  +:+ concat_strings (directive_line width <$> directives)
  +:+ "}" +:+ nl +:+ nl.

(** A passive-only service with a freshness check: the directives of
    section 4.2 of the specification. *)
Definition passive_service_directives (service_template : string)
    (stale_threshold_seconds : Z) (s : Service) : list (string * string) :=
  [ ("use", service_template);
    ("host_name", Service_Hostname s);
    ("service_description", Service_ServiceDescription s);
    ("check_command", "check_dummy!0!OK");
    ("active_checks_enabled", "0");
    ("passive_checks_enabled", "1");
    ("check_freshness", "1");
    ("freshness_threshold", Sprintf_d stale_threshold_seconds);
    ("notification_interval", "0") ]%string.

(** The template parameters of a render. *)
Definition render_params (g : Generator) : string * string * Z :=
  (HostTemplate (config g), ServiceTemplate (config g),
   int_of_float64 (Duration_Seconds (staleThreshold g))).

(** *** Publishing and signalling (from "Content has changed" on) *)

Definition tempFileName (g : Generator) : Path :=
  filepath_Join (OutputDir (config g)) "nrdp_generated.cfg.tmp".
Definition finalFileName (g : Generator) : Path :=
  filepath_Join (OutputDir (config g)) "nrdp_generated.cfg".

Definition publish (g : Generator) (env : Env) (newConfigContent : string)
    (w : World) : Result :=
  match WriteFile (write_fault env) (tempFileName g) newConfigContent
                  (w_fs w) with
  | (fs, Some _) =>
      mkResult (mkWorld (w_db w) fs)
               [EvWriteFile (tempFileName g) newConfigContent] WriteFailed
  | (fs, None) =>
      match Rename (rename_fails env) (tempFileName g) (finalFileName g)
                   fs with
      | (fs, Some _) =>
          let '(fs, _) := Remove (remove_fails env) (tempFileName g) fs in
          mkResult (mkWorld (w_db w) fs)
                   [EvWriteFile (tempFileName g) newConfigContent;
                    EvRename (tempFileName g) (finalFileName g);
                    EvRemove (tempFileName g)]
                   RenameFailed
      | (fs, None) =>
          mkResult (mkWorld (w_db w) fs)
                   [EvWriteFile (tempFileName g) newConfigContent;
                    EvRename (tempFileName g) (finalFileName g);
                    EvSend (receiver_ready env)]
                   Updated
      end
  end.

(** *** The cycle *)

(** Step 1: delete stale entries.  Errors are logged and ignored. *)
Definition staleCutoff (g : Generator) (env : Env) : Time :=
  Time_Add (now env) (Duration_neg (staleThreshold g)).

Definition prune (g : Generator) (env : Env) (m : Manager) : Manager :=
  let '(m, _) := DeleteStaleHosts (delete_hosts_fault env) m
                   (staleCutoff g env) in
  let '(m, _) := DeleteStaleServices (delete_services_fault env) m
                   (staleCutoff g env) in
  m.

Definition generateConfigs (g : Generator) (env : Env) (w : World)
    : Result :=
  let m := prune g env (w_db w) in
  let w := mkWorld m (w_fs w) in
  match GetAllHosts (get_hosts_fails env) m with
  | (_, Some _) => mkResult w [] HostFetchFailed
  | (hosts, None) =>
      match GetAllServices (get_services_fails env) m with
      | (_, Some _) => mkResult w [] ServiceFetchFailed
      | (services, None) =>
          if bool_decide (length hosts = 0%nat)
             && bool_decide (length services = 0%nat)
          then mkResult w [] NothingActive
          else
            let newConfigContent := render g hosts services in
            let '(existingConfigContent, _) :=
              ReadFile (read_fault env) (finalFileName g) (w_fs w) in
            if bytes_Equal newConfigContent existingConfigContent
            then mkResult w [] Identical
            else publish g env newConfigContent w
      end
  end.

End nagios_config.



(** ** A small installation, for the instances below *)

Module examples.
Import Go db nagios_config.

(** The default configuration: templates [linux-server] and
    [generic-service], an interval of 30s, a stale threshold of 6h. *)
Definition cfg : NagiosConfig :=
  mkNagiosConfig "/etc/nagios4/dynamic" "linux-server" "generic-service"
                 "30s" "6h" EmptyString.

Definition gen : Generator :=
  mkGenerator cfg (30 * Second) (6 * 3600 * Second).

(** The same generator with another period. *)
Definition gen' : Generator :=
  mkGenerator cfg (60 * Second) (6 * 3600 * Second).

(** A ledger: two hosts, two services of [web1], and a service of a host
    that has no row. *)
Definition ledger : Manager :=
  mkManager
    (<["web2" := 100000]> (<["web1" := 100090]> ∅))
    (<[("web1", "HTTP") := 100090]>
       (<[("web1", "DNS") := 100050]>
          (<[("ghost", "PING") := 100070]> ∅))).

(** A ledger with orphan services only, and an empty one. *)
Definition orphans : Manager :=
  mkManager ∅ (<[("ghost", "PING") := 100070]> ∅).

Definition nothing : Manager := mkManager ∅ ∅.

(** A cycle at [t] seconds and a half in which nothing fails and the
    receiver is ready. *)
Definition quiet (t : Z) : Env :=
  mkEnv (time_Unix t 500000000) ExecOk ExecOk false false ReadOk WriteOk
        false false true.

Definition hosts_fetch_fails (t : Z) : Env :=
  mkEnv (time_Unix t 0) ExecOk ExecOk true false ReadOk WriteOk
        false false true.

Definition services_fetch_fails (t : Z) : Env :=
  mkEnv (time_Unix t 0) ExecOk ExecOk false true ReadOk WriteOk
        false false true.

Definition rename_fails_at (t : Z) : Env :=
  mkEnv (time_Unix t 0) ExecOk ExecOk false false ReadOk WriteOk
        true false true.

Definition published : Path := ("/etc/nagios4/dynamic", "nrdp_generated.cfg").

Definition old_config : string := "define host { host_name old }".

Definition fresh_install : World := mkWorld ledger ∅.
Definition running : World := mkWorld ledger (<[published := old_config]> ∅).
Definition only_orphans : World :=
  mkWorld orphans (<[published := old_config]> ∅).
Definition no_services : World :=
  mkWorld (mkManager (hosts ledger) ∅) (<[published := old_config]> ∅).
Definition emptied : World :=
  mkWorld nothing (<[published := old_config]> ∅).

End examples.

(** ** The Go primitives: order on strings, sorting, time *)

Module Go_props.
Import Go.

Lemma ascii_compare_refl (a : Ascii.ascii) : Ascii.compare a a = Eq.
Proof. unfold Ascii.compare. apply N.compare_refl. Qed.

Lemma ascii_compare_lt_trans (a b c : Ascii.ascii) :
  Ascii.compare a b = Lt → Ascii.compare b c = Lt → Ascii.compare a c = Lt.
Proof.
  unfold Ascii.compare. rewrite !N.compare_lt_iff. apply N.lt_trans.
Qed.

Lemma string_compare_refl (s : string) : String.compare s s = Eq.
Proof.
  induction s as [|a s IH]; simpl; [done|].
  by rewrite ascii_compare_refl.
Qed.

Lemma string_compare_lt_trans (s1 s2 s3 : string) :
  String.compare s1 s2 = Lt → String.compare s2 s3 = Lt →
  String.compare s1 s3 = Lt.
Proof.
  revert s2 s3.
  induction s1 as [|a s1 IH]; intros [|b s2] [|c s3]; simpl; try done.
  destruct (Ascii.compare a b) eqn:Hab; try done.
  - apply Ascii.compare_eq_iff in Hab as ->.
    destruct (Ascii.compare b c); try done. apply IH.
  - destruct (Ascii.compare b c) eqn:Hbc; try done.
    + apply Ascii.compare_eq_iff in Hbc as <-. by rewrite Hab.
    + by rewrite (ascii_compare_lt_trans _ _ _ Hab Hbc).
Qed.

Lemma string_less_irrefl (s : string) : string_less s s = false.
Proof. unfold string_less, String.ltb. by rewrite string_compare_refl. Qed.

Lemma string_less_asym (a b : string) :
  string_less a b = true → string_less b a = false.
Proof.
  unfold string_less, String.ltb. rewrite (String.compare_antisym a b).
  by destruct (String.compare b a).
Qed.

Lemma string_less_trans (a b c : string) :
  string_less a b = true → string_less b c = true → string_less a c = true.
Proof.
  unfold string_less, String.ltb. intros Hab Hbc.
  destruct (String.compare a b) eqn:E1; try done.
  destruct (String.compare b c) eqn:E2; try done.
  by rewrite (string_compare_lt_trans _ _ _ E1 E2).
Qed.

(** Trichotomy: two strings neither of which is less are equal. *)
Lemma string_less_total (a b : string) :
  string_less a b = false → string_less b a = false → a = b.
Proof.
  unfold string_less, String.ltb. rewrite (String.compare_antisym a b).
  destruct (String.compare b a) eqn:E; try done.
  intros _ _. symmetry. by apply String.compare_eq_iff.
Qed.

#[export] Instance string_le_dec a b : Decision (string_le a b).
Proof. unfold string_le. apply _. Defined.

#[export] Instance string_le_trans : Transitive string_le.
Proof.
  intros a b c Hab Hbc. unfold string_le in *.
  destruct (string_less c a) eqn:Hca; [|done].
  destruct (string_less b c) eqn:Hbc'.
  - by rewrite (string_less_trans _ _ _ Hbc' Hca) in Hab.
  - by rewrite (string_less_total _ _ Hbc' Hbc), Hca in Hab.
Qed.

#[export] Instance string_le_antisym : AntiSymm (=) string_le.
Proof. intros a b Hab Hba. by apply string_less_total. Qed.

Lemma NoDup_fmap_elem_inj {A B : Type} (f : A → B) (l : list A) (x y : A) :
  NoDup (f <$> l) → x ∈ l → y ∈ l → f x = f y → x = y.
Proof.
  induction l as [|z l IH]; [by intros _ ?%elem_of_nil|].
  rewrite fmap_cons, NoDup_cons, !elem_of_cons.
  intros [Hz Hnd] [->|Hx] [->|Hy] Hf; [done| | |by apply IH].
  - exfalso. apply Hz. rewrite Hf. by apply list_elem_of_fmap_2.
  - exfalso. apply Hz. rewrite <- Hf. by apply list_elem_of_fmap_2.
Qed.

Section sort_props.
Context {A : Type} (less : A → A → bool).
Hypothesis less_asym : ∀ a b, less a b = true → less b a = false.

Lemma insert_perm (x : A) (l : list A) : insert less x l ≡ₚ x :: l.
Proof.
  induction l as [|y l IH]; simpl; [done|].
  destruct (less y x); [|done].
  rewrite IH. apply Permutation_swap.
Qed.

Lemma sort_Slice_perm (l : list A) : sort_Slice less l ≡ₚ l.
Proof.
  induction l as [|x l IH]; simpl; [done|].
  by rewrite insert_perm, IH.
Qed.

Lemma insert_HdRel (a x : A) (l : list A) :
  ordered less a x → HdRel (ordered less) a l →
  HdRel (ordered less) a (insert less x l).
Proof.
  intros Hax Hal. destruct l as [|y l]; simpl.
  - by constructor.
  - destruct (less y x); constructor; [by inversion Hal|done].
Qed.

Lemma insert_sorted (x : A) (l : list A) :
  Sorted (ordered less) l → Sorted (ordered less) (insert less x l).
Proof.
  induction l as [|y l IH]; simpl; intros Hs.
  - repeat constructor.
  - apply Sorted_inv in Hs as [Hs Hhd].
    destruct (less y x) eqn:Hyx.
    + constructor; [by apply IH|].
      apply insert_HdRel; [|done]. by apply less_asym.
    + constructor; [by constructor|by constructor].
Qed.

Lemma sort_Slice_sorted (l : list A) : Sorted (ordered less) (sort_Slice less l).
Proof.
  induction l as [|x l IH]; simpl; [constructor|by apply insert_sorted].
Qed.

(** Sorting a sorted slice changes nothing. *)
Lemma sort_Slice_id (l : list A) :
  Sorted (ordered less) l → sort_Slice less l = l.
Proof.
  induction l as [|x l IH]; simpl; [done|].
  intros Hs. apply Sorted_inv in Hs as [Hs Hhd].
  rewrite (IH Hs). destruct Hhd as [|y l Hxy]; simpl; [done|].
  by rewrite Hxy.
Qed.

(** With pairwise incomparable-only-if-equal elements, a sorted
    permutation of [l] is [sort_Slice l]: the result does not depend on
    the sorting algorithm. *)
Lemma sort_Slice_unique `{!Transitive (ordered less)} (l l' : list A) :
  (∀ x y, x ∈ l → y ∈ l → ordered less x y → ordered less y x → x = y) →
  l' ≡ₚ l → Sorted (ordered less) l' → l' = sort_Slice less l.
Proof.
  intros Hkey Hperm Hs.
  apply (Sorted_unique_strong (ordered less)); [| done | apply sort_Slice_sorted |].
  - intros x y Hx Hy. apply Hkey.
    + by rewrite <- Hperm.
    + by rewrite <- (sort_Slice_perm l).
  - by rewrite sort_Slice_perm.
Qed.

End sort_props.

(** Sorting by a string key. *)
Section sort_by_key.
Context {A : Type} (key : A → string).

Lemma less_by_asym (a b : A) :
  less_by key a b = true → less_by key b a = false.
Proof. apply string_less_asym. Qed.

#[export] Instance ordered_less_by_trans : Transitive (ordered (less_by key)).
Proof.
  intros a b c Hab Hbc.
  exact (string_le_trans (key a) (key b) (key c) Hab Hbc).
Qed.

Lemma sort_by_key_sorted (l : list A) :
  Sorted string_le (key <$> sort_Slice (less_by key) l).
Proof.
  apply (Sorted_fmap key (ordered (less_by key)) string_le); [done|].
  apply sort_Slice_sorted, less_by_asym.
Qed.

(** With pairwise distinct keys the sorted slice is the same whatever
    the sorting algorithm. *)
Lemma sort_by_key_unique (l l' : list A) :
  NoDup (key <$> l) → l' ≡ₚ l → Sorted (ordered (less_by key)) l' →
  l' = sort_Slice (less_by key) l.
Proof.
  intros Hnd Hperm Hs.
  apply (sort_Slice_unique (less_by key) less_by_asym l l'); [|done|done].
  intros x y Hx Hy Hxy Hyx.
  apply (NoDup_fmap_elem_inj key l); [done|done|done|].
  by apply string_less_total.
Qed.

End sort_by_key.

(** *** Time *)

Lemma wrap64_id (z : Z) : MinInt64 ≤ z ≤ MaxInt64 → wrap64 z = z.
Proof.
  unfold wrap64, MinInt64, MaxInt64. intros H.
  rewrite Z.mod_small; lia.
Qed.

Lemma Duration_neg_opp (d : Duration) :
  MinInt64 < d ≤ MaxInt64 → Duration_neg d = - d.
Proof.
  unfold Duration_neg. intros H. apply wrap64_id.
  unfold MinInt64, MaxInt64 in *. lia.
Qed.

End Go_props.

(** ** Properties of the ledger *)

Module db_props.
Import Go db Go_props.

(** What [DELETE ... WHERE last_seen < cutoff] keeps and counts. *)
Section tables.
Context {K : Type} `{Countable K}.

Lemma fresh_lookup (cutoff : Z) (t : gmap K Z) (k : K) (v : Z) :
  fresh cutoff t !! k = Some v ↔ t !! k = Some v ∧ cutoff ≤ v.
Proof.
  unfold fresh. rewrite map_lookup_filter_Some. simpl. intuition lia.
Qed.

Lemma stale_fresh_size (cutoff : Z) (t : gmap K Z) :
  (size (stale cutoff t) + size (fresh cutoff t))%nat = size t.
Proof.
  unfold stale, fresh.
  rewrite <- map_size_disj_union by apply map_disjoint_filter_complement.
  by rewrite map_filter_union_complement.
Qed.

Lemma fresh_id (cutoff : Z) (t : gmap K Z) :
  (∀ k v, t !! k = Some v → cutoff ≤ v) → fresh cutoff t = t.
Proof.
  intros Hall. apply map_eq. intros k. apply option_eq. intros v.
  rewrite fresh_lookup. split; [by intros [? _]|]. intros Hk. split; [done|].
  by apply (Hall k).
Qed.

End tables.

(** The rows of [GetAllHosts] are the rows of the table. *)
Lemma GetAllHosts_elem_of (m : Manager) (h : Host) :
  h ∈ (GetAllHosts false m).1 ↔
  ∃ t, hosts m !! Host_Hostname h = Some t ∧ Host_LastSeen h = time_Unix t 0.
Proof.
  simpl. rewrite list_elem_of_fmap. split.
  - intros [[hn t] [-> Hin]]. rewrite (sort_Slice_perm host_row_less) in Hin.
    apply elem_of_map_to_list in Hin. by exists t.
  - intros [t [Hl Ht]]. exists (Host_Hostname h, t). split.
    + destruct h as [hn ls]. simpl in *. by rewrite Ht.
    + rewrite (sort_Slice_perm host_row_less). by apply elem_of_map_to_list.
Qed.

Lemma GetAllHosts_hostnames (m : Manager) :
  Host_Hostname <$> (GetAllHosts false m).1 ≡ₚ (map_to_list (hosts m)).*1.
Proof.
  simpl. rewrite <- list_fmap_compose.
  by rewrite (sort_Slice_perm host_row_less).
Qed.

Lemma GetAllHosts_NoDup (m : Manager) :
  NoDup (Host_Hostname <$> (GetAllHosts false m).1).
Proof. rewrite GetAllHosts_hostnames. apply NoDup_fst_map_to_list. Qed.

(** [ORDER BY hostname]: the rows come in ascending order of hostname. *)
Lemma GetAllHosts_sorted (m : Manager) :
  Sorted string_le (Host_Hostname <$> (GetAllHosts false m).1).
Proof.
  simpl. rewrite <- list_fmap_compose.
  apply (sort_by_key_sorted (λ r : string * Z, r.1)).
Qed.

(** Any engine that returns the rows in ascending order of hostname
    returns them as modelled. *)
Lemma GetAllHosts_order_unique (m : Manager) (rows : list (string * Z)) :
  rows ≡ₚ map_to_list (hosts m) → Sorted (ordered host_row_less) rows →
  host_of_row <$> rows = (GetAllHosts false m).1.
Proof.
  intros Hperm Hs. simpl. f_equal.
  apply (sort_by_key_unique (λ r : string * Z, r.1));
    [apply NoDup_fst_map_to_list|done|done].
Qed.

Lemma GetAllHosts_empty (m : Manager) :
  (GetAllHosts false m).1 = [] ↔ hosts m = ∅.
Proof.
  simpl. rewrite <- map_to_list_empty_iff. split.
  - intros Hs. apply fmap_nil_inv in Hs. apply Permutation_nil_r.
    by rewrite <- (sort_Slice_perm host_row_less), Hs.
  - by intros ->.
Qed.

Lemma GetAllServices_elem_of (m : Manager) (s : Service) :
  s ∈ (GetAllServices false m).1 ↔
  ∃ t, services m !! (Service_Hostname s, Service_ServiceDescription s)
       = Some t
       ∧ Service_LastSeen s = time_Unix t 0.
Proof.
  simpl. rewrite list_elem_of_fmap. split.
  - intros [[[hn sd] t] [-> Hin]].
    rewrite (sort_Slice_perm service_row_less) in Hin.
    apply elem_of_map_to_list in Hin. by exists t.
  - intros [t [Hl Ht]].
    exists ((Service_Hostname s, Service_ServiceDescription s), t). split.
    + destruct s as [hn sd ls]. simpl in *. by rewrite Ht.
    + rewrite (sort_Slice_perm service_row_less).
      by apply elem_of_map_to_list.
Qed.

Lemma GetAllServices_NoDup (m : Manager) :
  NoDup ((λ s, (Service_Hostname s, Service_ServiceDescription s))
           <$> (GetAllServices false m).1).
Proof.
  simpl. rewrite <- list_fmap_compose.
  rewrite (sort_Slice_perm service_row_less).
  rewrite (list_fmap_ext _ fst (map_to_list (services m)));
    [apply NoDup_fst_map_to_list|].
  by intros _ [[hn sd] t] _.
Qed.

Lemma GetAllServices_empty (m : Manager) :
  (GetAllServices false m).1 = [] ↔ services m = ∅.
Proof.
  simpl. rewrite <- map_to_list_empty_iff. split.
  - intros Hs. apply fmap_nil_inv in Hs. apply Permutation_nil_r.
    by rewrite <- (sort_Slice_perm service_row_less), Hs.
  - by intros ->.
Qed.

(** C8. [UpdateHost] stores the second of the supplied time whatever
    the table held: after two calls for one hostname the row holds the
    second call's time, also when it is the earlier one, so the stored
    last_seen moves backward whenever the later call carries an earlier
    second. *)
Theorem UpdateHost_last_write_wins (m : Manager) (hostname : string)
    (t1 t2 : Time) :
  let m1 := (UpdateHost false m hostname t1).1 in
  let r2 := UpdateHost false m1 hostname t2 in
  r2.2 = None
  ∧ hosts m1 !! hostname = Some (Time_Unix t1)
  ∧ hosts r2.1 !! hostname = Some (Time_Unix t2)
  ∧ hosts r2.1 = <[hostname := Time_Unix t2]> (hosts m)
  ∧ services r2.1 = services m
  ∧ (Time_Unix t2 < Time_Unix t1 →
     ∃ v1 v2, hosts m1 !! hostname = Some v1
              ∧ hosts r2.1 !! hostname = Some v2 ∧ v2 < v1).
Proof.
  simpl. split_and!; [done| | | |done|].
  - apply lookup_insert_eq.
  - apply lookup_insert_eq.
  - apply insert_insert_eq.
  - intros Hlt. exists (Time_Unix t1), (Time_Unix t2).
    by rewrite insert_insert_eq, !lookup_insert_eq.
Qed.

End db_props.

(** ** Properties of the renderer *)

Module render_props.
Import Go db nagios_config Go_props.

Lemma append_cons (x : Ascii.ascii) (a b : string) :
  String x a +:+ b = String x (a +:+ b).
Proof. done. Qed.

Lemma append_assoc (a b c : string) : (a +:+ b) +:+ c = a +:+ (b +:+ c).
Proof.
  induction a as [|x a IH]; [done|]. by rewrite !append_cons, IH.
Qed.

Lemma append_nil_r (a : string) : a +:+ EmptyString = a.
Proof.
  induction a as [|x a IH]; [done|]. by rewrite append_cons, IH.
Qed.

Lemma concat_strings_cons (x : string) (l : list string) :
  concat_strings (x :: l) = x +:+ concat_strings l.
Proof. done. Qed.

Lemma concat_strings_app (l1 l2 : list string) :
  concat_strings (l1 ++ l2) = concat_strings l1 +:+ concat_strings l2.
Proof.
  induction l1 as [|x l1 IH]; [done|].
  rewrite <- app_comm_cons, !concat_strings_cons, IH.
  by rewrite append_assoc.
Qed.

(** A member of a concatenation sits in it between a prefix and a
    suffix. *)
Lemma concat_strings_elem_of (x : string) (l : list string) :
  x ∈ l → ∃ pre post, concat_strings l = pre +:+ x +:+ post.
Proof.
  intros (l1 & l2 & ->)%list_elem_of_split.
  exists (concat_strings l1), (concat_strings l2).
  by rewrite concat_strings_app.
Qed.

(** *** The buffer after the loop is the concatenation of the blocks *)

Lemma write_host_append (g : Generator) (buffer : string) (h : Host) :
  write_host g buffer h = buffer +:+ block_text g (HostDef h).
Proof.
  unfold block_text, write_host, WriteString.
  by rewrite !append_assoc.
Qed.

Lemma write_service_append (g : Generator) (buffer : string) (s : Service) :
  write_service g buffer s = buffer +:+ block_text g (ServiceDef s).
Proof.
  unfold block_text, write_service, WriteString.
  by rewrite !append_assoc.
Qed.

Lemma write_services_append (g : Generator) (l : list Service)
    (buffer : string) :
  fold_left (write_service g) l buffer
  = buffer +:+ concat_strings (block_text g <$> (ServiceDef <$> l)).
Proof.
  revert buffer. induction l as [|s l IH]; intros buffer; simpl.
  - by rewrite append_nil_r.
  - by rewrite IH, write_service_append, append_assoc.
Qed.

Lemma write_host_and_services_append (g : Generator)
    (byHost : gmap string (list Service)) (buffer : string) (h : Host) :
  write_host_and_services g byHost buffer h
  = buffer +:+ concat_strings (block_text g <$> host_blocks byHost h).
Proof.
  unfold write_host_and_services, host_blocks.
  destruct (byHost !! Host_Hostname h) as [hostServices|]; simpl.
  - by rewrite write_services_append, write_host_append, append_assoc.
  - by rewrite write_host_append, append_nil_r.
Qed.

Lemma render_emitted (g : Generator) (hosts : list Host)
    (services : list Service) :
  render g hosts services
  = concat_strings (block_text g <$> emitted hosts services).
Proof.
  unfold render, emitted.
  generalize (sort_Slice host_less hosts) as hs.
  generalize (servicesByHost services) as byHost. intros byHost hs.
  change (fold_left (write_host_and_services g byHost) hs EmptyString
          = EmptyString +:+
            concat_strings (block_text g <$> hs ≫= host_blocks byHost)).
  generalize EmptyString as buffer.
  induction hs as [|h hs IH]; intros buffer.
  - simpl. by rewrite append_nil_r.
  - rewrite bind_cons, fmap_app, concat_strings_app.
    cbn [fold_left]. rewrite IH, write_host_and_services_append.
    by rewrite append_assoc.
Qed.

(** The text of a block depends on the generator through the template
    parameters only. *)
Lemma block_text_params (g1 g2 : Generator) (b : Block) :
  render_params g1 = render_params g2 → block_text g1 b = block_text g2 b.
Proof.
  unfold render_params. intros [= Hh Hs Ht].
  destruct b as [h|s]; simpl.
  - unfold write_host. by rewrite Hh.
  - unfold write_service. by rewrite Hs, Ht.
Qed.

Lemma render_params_ext (g1 g2 : Generator) (hosts : list Host)
    (services : list Service) :
  render_params g1 = render_params g2 →
  render g1 hosts services = render g2 hosts services.
Proof.
  intros Hp. rewrite !render_emitted. f_equal.
  apply list_fmap_ext. intros _ b _. by apply block_text_params.
Qed.

(** *** Grouping by hostname *)

Lemma servicesByHost_snoc (l : list Service) (s : Service) :
  servicesByHost (l ++ [s])
  = <[Service_Hostname s :=
        default [] (servicesByHost l !! Service_Hostname s) ++ [s]]>
      (servicesByHost l).
Proof. unfold servicesByHost. by rewrite fold_left_app. Qed.

(** The slice stored under a hostname holds the fetched services of that
    host, in fetch order; hosts without service have no entry. *)
Lemma servicesByHost_lookup (services : list Service) (hostname : string) :
  servicesByHost services !! hostname
  = match filter (λ s, Service_Hostname s = hostname) services with
    | [] => None
    | l => Some l
    end.
Proof.
  induction services as [|s l IH] using rev_ind; [done|].
  rewrite servicesByHost_snoc, filter_app, lookup_insert.
  case_decide as Hs.
  - rewrite filter_cons_True, filter_nil by done.
    subst hostname. rewrite IH.
    by destruct (filter _ l).
  - rewrite filter_cons_False, filter_nil, app_nil_r by done. done.
Qed.

Lemma servicesByHost_Some (services hostServices : list Service)
    (hostname : string) :
  servicesByHost services !! hostname = Some hostServices →
  hostServices = filter (λ s, Service_Hostname s = hostname) services.
Proof.
  rewrite servicesByHost_lookup. destruct (filter _ services); naive_solver.
Qed.

(** *** The blocks *)

(** A host block is followed by the blocks of the services fetched for
    that hostname, sorted by description. *)
Lemma host_blocks_filter (services : list Service) (h : Host) :
  host_blocks (servicesByHost services) h
  = HostDef h ::
    (ServiceDef <$>
       sort_Slice service_less
         (filter (λ s, Service_Hostname s = Host_Hostname h) services)).
Proof.
  unfold host_blocks. rewrite servicesByHost_lookup.
  by destruct (filter _ services).
Qed.

Lemma host_blocks_elem_of (services : list Service) (h : Host) (b : Block) :
  b ∈ host_blocks (servicesByHost services) h ↔
  b = HostDef h
  ∨ ∃ s, b = ServiceDef s ∧ s ∈ services
         ∧ Service_Hostname s = Host_Hostname h.
Proof.
  unfold host_blocks. rewrite elem_of_cons.
  apply or_iff_compat_l.
  rewrite servicesByHost_lookup.
  destruct (filter _ services) as [|s0 l0] eqn:Hf.
  - rewrite elem_of_nil. split; [done|]. intros (s & _ & Hin & Hh).
    assert (Hs : s ∈ filter (λ s, Service_Hostname s = Host_Hostname h)
                   services) by by apply list_elem_of_filter.
    rewrite Hf in Hs. by apply elem_of_nil in Hs.
  - rewrite <- Hf. rewrite list_elem_of_fmap.
    setoid_rewrite (sort_Slice_perm service_less).
    setoid_rewrite list_elem_of_filter. naive_solver.
Qed.

Lemma host_blocks_host (services : list Service) (h : Host) (b : Block) :
  b ∈ host_blocks (servicesByHost services) h →
  block_host b = Host_Hostname h.
Proof.
  rewrite host_blocks_elem_of. by intros [->|(s & -> & _ & Hh)].
Qed.

Lemma emitted_elem_of (hosts : list Host) (services : list Service)
    (b : Block) :
  b ∈ emitted hosts services ↔
  (∃ h, b = HostDef h ∧ h ∈ hosts)
  ∨ (∃ s h, b = ServiceDef s ∧ s ∈ services ∧ h ∈ hosts
            ∧ Service_Hostname s = Host_Hostname h).
Proof.
  unfold emitted. rewrite list_elem_of_bind.
  setoid_rewrite host_blocks_elem_of.
  setoid_rewrite (sort_Slice_perm host_less). naive_solver.
Qed.

(** Every block is written for a fetched host. *)
Lemma emitted_block_host (hosts : list Host) (services : list Service)
    (b : Block) :
  b ∈ emitted hosts services → block_host b ∈ Host_Hostname <$> hosts.
Proof.
  rewrite emitted_elem_of, list_elem_of_fmap.
  intros [(h & -> & Hh)|(s & h & -> & _ & Hh & Heq)]; simpl; eauto.
Qed.

End render_props.

(** ** Order and uniqueness of the blocks *)

Module order_props.
Import Go db nagios_config Go_props db_props render_props.

Lemma emitted_hostnames_app (l1 l2 : list Block) :
  emitted_hostnames (l1 ++ l2) = emitted_hostnames l1 ++ emitted_hostnames l2.
Proof. apply omap_app. Qed.

Lemma emitted_descriptions_app (hostname : string) (l1 l2 : list Block) :
  emitted_descriptions hostname (l1 ++ l2)
  = emitted_descriptions hostname l1 ++ emitted_descriptions hostname l2.
Proof. apply omap_app. Qed.

Lemma emitted_hostnames_services (l : list Service) :
  emitted_hostnames (ServiceDef <$> l) = [].
Proof. by induction l. Qed.

Lemma emitted_hostnames_host_blocks (byHost : gmap string (list Service))
    (h : Host) :
  emitted_hostnames (host_blocks byHost h) = [Host_Hostname h].
Proof.
  unfold host_blocks, emitted_hostnames. cbn [omap list_omap].
  f_equal. destruct (byHost !! Host_Hostname h); [|done].
  apply emitted_hostnames_services.
Qed.

Lemma emitted_hostnames_bind (byHost : gmap string (list Service))
    (hs : list Host) :
  emitted_hostnames (hs ≫= host_blocks byHost) = Host_Hostname <$> hs.
Proof.
  induction hs as [|h hs IH]; [done|].
  rewrite bind_cons, fmap_cons, emitted_hostnames_app, IH.
  by rewrite emitted_hostnames_host_blocks.
Qed.

(** The host blocks come in the order [sort.Slice] leaves the hosts in. *)
Lemma emitted_hostnames_sorted (hosts : list Host) (services : list Service) :
  Sorted string_le (emitted_hostnames (emitted hosts services)).
Proof.
  unfold emitted. rewrite emitted_hostnames_bind.
  apply (sort_by_key_sorted Host_Hostname).
Qed.

Lemma emitted_descriptions_same (hostname : string) (l : list Service) :
  (∀ s, s ∈ l → Service_Hostname s = hostname) →
  emitted_descriptions hostname (ServiceDef <$> l)
  = Service_ServiceDescription <$> l.
Proof.
  induction l as [|s l IH]; intros Hall; [done|].
  rewrite !fmap_cons. unfold emitted_descriptions in *.
  cbn [omap list_omap].
  rewrite bool_decide_eq_true_2 by (apply Hall; left).
  f_equal. apply IH. intros s' Hs'. apply Hall. by right.
Qed.

Lemma emitted_descriptions_other (hostname : string) (l : list Service) :
  (∀ s, s ∈ l → Service_Hostname s ≠ hostname) →
  emitted_descriptions hostname (ServiceDef <$> l) = [].
Proof.
  induction l as [|s l IH]; intros Hall; [done|].
  rewrite !fmap_cons. unfold emitted_descriptions in *.
  cbn [omap list_omap].
  rewrite bool_decide_eq_false_2 by (apply Hall; left).
  apply IH. intros s' Hs'. apply Hall. by right.
Qed.

Lemma host_blocks_descriptions (services : list Service) (h : Host)
    (hostname : string) :
  Sorted string_le
    (emitted_descriptions hostname (host_blocks (servicesByHost services) h))
  ∧ (Host_Hostname h ≠ hostname →
     emitted_descriptions hostname (host_blocks (servicesByHost services) h)
     = []).
Proof.
  unfold host_blocks.
  change (emitted_descriptions hostname (HostDef h :: ?l))
    with (emitted_descriptions hostname l).
  destruct (servicesByHost services !! Host_Hostname h) as [l|] eqn:Hl;
    [|by split; [constructor|]].
  apply servicesByHost_Some in Hl.
  assert (Hall : ∀ s, s ∈ sort_Slice service_less l →
                      Service_Hostname s = Host_Hostname h).
  { intros s. rewrite (sort_Slice_perm service_less), Hl.
    by intros [? _]%list_elem_of_filter. }
  destruct (decide (Host_Hostname h = hostname)) as [Heq|Hne].
  - split; [|done]. rewrite emitted_descriptions_same.
    + apply (sort_by_key_sorted Service_ServiceDescription).
    + intros s Hs. by rewrite (Hall s Hs).
  - rewrite emitted_descriptions_other; [by split; [constructor|]|].
    intros s Hs. by rewrite (Hall s Hs).
Qed.

Lemma bind_descriptions (services : list Service) (hs : list Host)
    (hostname : string) :
  NoDup (Host_Hostname <$> hs) →
  Sorted string_le
    (emitted_descriptions hostname
       (hs ≫= host_blocks (servicesByHost services)))
  ∧ (hostname ∉ Host_Hostname <$> hs →
     emitted_descriptions hostname
       (hs ≫= host_blocks (servicesByHost services)) = []).
Proof.
  induction hs as [|h hs IH]; intros Hnd.
  - split; [constructor|done].
  - rewrite fmap_cons in Hnd. apply NoDup_cons in Hnd as [Hh Hnd].
    destruct (IH Hnd) as [IHs IHn].
    destruct (host_blocks_descriptions services h hostname) as [Hs Hn].
    rewrite bind_cons, emitted_descriptions_app. split.
    + destruct (decide (Host_Hostname h = hostname)) as [Heq|Hne].
      * rewrite IHn, app_nil_r by by rewrite <- Heq. done.
      * by rewrite (Hn Hne).
    + rewrite fmap_cons, not_elem_of_cons. intros [Hne Hnin].
      rewrite (Hn (not_eq_sym Hne)), (IHn Hnin). done.
Qed.

(** Under one host the service blocks come in ascending order of
    description, when no two fetched hosts share a hostname. *)
Lemma emitted_descriptions_sorted (hosts : list Host)
    (services : list Service) (hostname : string) :
  NoDup (Host_Hostname <$> hosts) →
  Sorted string_le
    (emitted_descriptions hostname (emitted hosts services)).
Proof.
  intros Hnd. unfold emitted. apply bind_descriptions.
  by rewrite (sort_Slice_perm host_less).
Qed.

Lemma block_key_host (b1 b2 : Block) :
  block_key b1 = block_key b2 → block_host b1 = block_host b2.
Proof. destruct b1, b2; simpl; congruence. Qed.

Lemma host_blocks_NoDup (services : list Service) (h : Host) :
  NoDup ((λ s, (Service_Hostname s, Service_ServiceDescription s))
           <$> services) →
  NoDup (block_key <$> host_blocks (servicesByHost services) h).
Proof.
  intros Hnd. unfold host_blocks. rewrite fmap_cons. apply NoDup_cons. split.
  - rewrite list_elem_of_fmap. intros (b & Hb & Hin).
    destruct (servicesByHost services !! Host_Hostname h);
      [|by apply elem_of_nil in Hin].
    apply list_elem_of_fmap in Hin as (s & -> & _). done.
  - destruct (servicesByHost services !! Host_Hostname h) as [l|] eqn:Hl;
      [|constructor].
    apply servicesByHost_Some in Hl.
    rewrite <- list_fmap_compose, (sort_Slice_perm service_less).
    change (NoDup ((@inr string (string * string))
                     ∘ (λ s, (Service_Hostname s,
                              Service_ServiceDescription s)) <$> l)).
    rewrite list_fmap_compose. apply (NoDup_fmap_2 inr).
    eapply sublist_NoDup; [exact Hnd|].
    rewrite Hl. apply fmap_sublist, sublist_filter.
Qed.

Lemma bind_block_host (services : list Service) (hs : list Host) (b : Block) :
  b ∈ hs ≫= host_blocks (servicesByHost services) →
  block_host b ∈ Host_Hostname <$> hs.
Proof.
  rewrite list_elem_of_bind. intros (h & Hb & Hh).
  rewrite (host_blocks_host _ _ _ Hb). by apply list_elem_of_fmap_2.
Qed.

Lemma bind_NoDup (services : list Service) (hs : list Host) :
  NoDup (Host_Hostname <$> hs) →
  NoDup ((λ s, (Service_Hostname s, Service_ServiceDescription s))
           <$> services) →
  NoDup (block_key <$> hs ≫= host_blocks (servicesByHost services)).
Proof.
  intros Hh Hs. induction hs as [|h hs IH]; [constructor|].
  rewrite fmap_cons in Hh. apply NoDup_cons in Hh as [Hnin Hh].
  rewrite bind_cons, fmap_app. apply NoDup_app. split_and!.
  - by apply host_blocks_NoDup.
  - intros k (b1 & -> & Hb1)%list_elem_of_fmap
             (b2 & Hk & Hb2)%list_elem_of_fmap.
    apply Hnin.
    rewrite <- (host_blocks_host _ _ _ Hb1), (block_key_host _ _ Hk).
    by apply (bind_block_host services).
  - by apply IH.
Qed.

(** No row is written twice, when the fetched rows have distinct keys. *)
Lemma emitted_NoDup (hosts : list Host) (services : list Service) :
  NoDup (Host_Hostname <$> hosts) →
  NoDup ((λ s, (Service_Hostname s, Service_ServiceDescription s))
           <$> services) →
  NoDup (block_key <$> emitted hosts services).
Proof.
  intros Hh Hs. unfold emitted. apply bind_NoDup; [|done].
  by rewrite (sort_Slice_perm host_less).
Qed.

(** *** The fetched rows and [sort.Slice]

    The hosts arrive sorted, so sorting them again changes nothing; and
    since hostnames, and descriptions under one hostname, are pairwise
    distinct, any sorting algorithm returns what [sort_Slice] returns. *)

Lemma GetAllHosts_ordered (m : Manager) :
  Sorted (ordered host_less) (GetAllHosts false m).1.
Proof.
  simpl. apply (Sorted_fmap host_of_row (ordered host_row_less)); [done|].
  apply (sort_Slice_sorted host_row_less).
  apply (less_by_asym (λ r : string * Z, r.1)).
Qed.

Lemma sort_fetched_hosts (m : Manager) :
  sort_Slice host_less (GetAllHosts false m).1 = (GetAllHosts false m).1.
Proof. apply sort_Slice_id, GetAllHosts_ordered. Qed.

Lemma sort_hosts_unique (m : Manager) (sorted : list Host) :
  sorted ≡ₚ (GetAllHosts false m).1 → Sorted (ordered host_less) sorted →
  sorted = sort_Slice host_less (GetAllHosts false m).1.
Proof.
  apply (sort_by_key_unique Host_Hostname), GetAllHosts_NoDup.
Qed.

Lemma host_services_NoDup (m : Manager) (hostname : string) :
  NoDup (Service_ServiceDescription <$>
           filter (λ s, Service_Hostname s = hostname)
                  (GetAllServices false m).1).
Proof.
  pose proof (GetAllServices_NoDup m) as Hnd.
  apply NoDup_fmap_2_strong.
  - intros x y [Hx Hxin]%list_elem_of_filter [Hy Hyin]%list_elem_of_filter Hd.
    apply (NoDup_fmap_elem_inj _ _ x y Hnd); [done|done|].
    simpl. congruence.
  - apply NoDup_filter. by apply NoDup_fmap_1 in Hnd.
Qed.

Lemma sort_host_services_unique (m : Manager) (hostname : string)
    (sorted : list Service) :
  sorted ≡ₚ filter (λ s, Service_Hostname s = hostname)
                   (GetAllServices false m).1 →
  Sorted (ordered service_less) sorted →
  sorted = sort_Slice service_less
             (filter (λ s, Service_Hostname s = hostname)
                     (GetAllServices false m).1).
Proof.
  apply (sort_by_key_unique Service_ServiceDescription), host_services_NoDup.
Qed.

(** The blocks of a render of the ledger: every fetched host, in fetch
    order, followed by its services in ascending order of description. *)
Lemma emitted_fetched (m : Manager) :
  emitted (GetAllHosts false m).1 (GetAllServices false m).1
  = (GetAllHosts false m).1 ≫= λ h,
      HostDef h ::
      (ServiceDef <$>
         sort_Slice service_less
           (filter (λ s, Service_Hostname s = Host_Hostname h)
                   (GetAllServices false m).1)).
Proof.
  unfold emitted. rewrite sort_fetched_hosts.
  apply list_bind_ext; [|done]. intros h. apply host_blocks_filter.
Qed.

End order_props.

(** ** The rendered configuration *)

Module render_spec.
Import Go db nagios_config Go_props db_props render_props order_props.

(** C3. Whatever the two tables hold, the rendered bytes are the
    definition blocks of the fetched hosts, each followed by the blocks of
    its services; the host blocks come in non-decreasing order of
    hostname, the service blocks of each host in non-decreasing order of
    description, and no two blocks are written from the same row. *)
Theorem render_sorted_without_duplicates (g : Generator) (m : Manager) :
  let hosts := (GetAllHosts false m).1 in
  let services := (GetAllServices false m).1 in
  let blocks := emitted hosts services in
  render g hosts services = concat_strings (block_text g <$> blocks)
  ∧ blocks
    = (hosts ≫= λ h,
         HostDef h ::
         (ServiceDef <$>
            sort_Slice service_less
              (filter (λ s, Service_Hostname s = Host_Hostname h) services)))
  ∧ Sorted string_le (emitted_hostnames blocks)
  ∧ (∀ hostname, Sorted string_le (emitted_descriptions hostname blocks))
  ∧ NoDup (block_key <$> blocks).
Proof.
  intros hosts services blocks. split_and!.
  - apply render_emitted.
  - apply emitted_fetched.
  - apply emitted_hostnames_sorted.
  - intros hostname. apply emitted_descriptions_sorted, GetAllHosts_NoDup.
  - apply emitted_NoDup; [apply GetAllHosts_NoDup|apply GetAllServices_NoDup].
Qed.

(** The deletion of stale services keeps a row whose last_seen is not
    before the cutoff, whatever the driver answers. *)
Lemma DeleteStaleServices_keeps (fault : ExecFault) (m : Manager)
    (threshold : Time) (k : string * string) (t : Z) :
  services m !! k = Some t → Time_Unix threshold ≤ t →
  services (DeleteStaleServices fault m threshold).1 !! k = Some t.
Proof.
  intros Hk Ht. destruct fault; simpl; [|done|]; by apply fresh_lookup.
Qed.

Lemma DeleteStaleHosts_services (fault : ExecFault) (m : Manager)
    (threshold : Time) :
  services (DeleteStaleHosts fault m threshold).1 = services m.
Proof. by destruct fault. Qed.

Lemma prune_keeps_service (g : Generator) (env : Env) (m : Manager)
    (k : string * string) (t : Z) :
  services m !! k = Some t → Time_Unix (staleCutoff g env) ≤ t →
  services (prune g env m) !! k = Some t.
Proof.
  intros Hk Ht. unfold prune.
  destruct (DeleteStaleHosts _ m _) as [m1 r1] eqn:H1.
  destruct (DeleteStaleServices _ m1 _) as [m2 r2] eqn:H2.
  change m2 with (m2, r2).1. rewrite <- H2.
  apply DeleteStaleServices_keeps; [|done].
  change m1 with (m1, r1).1. rewrite <- H1.
  by rewrite DeleteStaleHosts_services.
Qed.

(** C4. A service row whose hostname has no row in the hosts table is
    written nowhere in the render: every block of the render is written
    for another host.  The row is nevertheless among the fetched services,
    and it stays in the table and in the fetch through every pruning
    whose cutoff second is not after its last_seen; a successful pruning
    with a later cutoff removes it. *)
Theorem orphan_service_omitted (g : Generator) (m : Manager)
    (hostname description : string) (t : Z) :
  services m !! (hostname, description) = Some t →
  hosts m !! hostname = None →
  let fetched_hosts := (GetAllHosts false m).1 in
  let fetched_services := (GetAllServices false m).1 in
  let record := mkService hostname description (time_Unix t 0) in
  record ∈ fetched_services
  ∧ render g fetched_hosts fetched_services
    = concat_strings (block_text g <$> emitted fetched_hosts fetched_services)
  ∧ (∀ b, b ∈ emitted fetched_hosts fetched_services →
          block_host b ≠ hostname)
  ∧ (ServiceDef record ∉ emitted fetched_hosts fetched_services)
  ∧ (∀ env, Time_Unix (staleCutoff g env) ≤ t →
            record ∈ (GetAllServices false (prune g env m)).1)
  ∧ (∀ env, delete_services_fault env = ExecOk →
            t < Time_Unix (staleCutoff g env) →
            services (prune g env m) !! (hostname, description) = None).
Proof.
  intros Hs Hh fetched_hosts fetched_services record.
  assert (Hblocks : ∀ b, b ∈ emitted fetched_hosts fetched_services →
                         block_host b ≠ hostname).
  { intros b Hb%emitted_block_host Heq. rewrite Heq in Hb.
    apply list_elem_of_fmap in Hb as (h & Hhn & Hin).
    apply GetAllHosts_elem_of in Hin as (t' & Hl & _).
    rewrite <- Hhn in Hl. congruence. }
  split_and!.
  - apply GetAllServices_elem_of. by exists t.
  - apply render_emitted.
  - exact Hblocks.
  - intros Hin. by apply (Hblocks _ Hin).
  - intros env Ht. apply GetAllServices_elem_of. exists t. split; [|done].
    by apply prune_keeps_service.
  - intros env Hok Ht. unfold prune.
    destruct (DeleteStaleHosts _ m _) as [m1 r1] eqn:H1.
    rewrite Hok. simpl. apply eq_None_not_Some. intros [v Hv].
    apply fresh_lookup in Hv as [Hv Hle].
    assert (Hm1 : services m1 = services m).
    { change m1 with (m1, r1).1. rewrite <- H1.
      apply DeleteStaleHosts_services. }
    rewrite Hm1 in Hv. assert (v = t) by congruence. lia.
Qed.

(** C9. Every service block of a render is the object definition of a
    passive-only service: it uses the configured service template, turns
    active checks off and passive checks on, turns the freshness check on
    with the stale threshold in whole seconds ([int(d.Seconds())]) as its
    threshold, and sets the notification interval to zero; this text
    stands in the rendered bytes. *)
Theorem service_block_is_passive_with_freshness (g : Generator)
    (hosts : list Host) (services : list Service) (s : Service) :
  ServiceDef s ∈ emitted hosts services →
  block_text g (ServiceDef s)
  = object_definition "service" 24
      (passive_service_directives (ServiceTemplate (config g))
         (int_of_float64 (Duration_Seconds (staleThreshold g))) s)
  ∧ ∃ pre post,
      render g hosts services = pre +:+ block_text g (ServiceDef s) +:+ post.
Proof.
  intros Hin. split.
  - unfold block_text, write_service, WriteString, object_definition,
      passive_service_directives, directive_line.
    generalize (Sprintf_d
                  (int_of_float64 (Duration_Seconds (staleThreshold g)))).
    intros n. cbn [fmap list_fmap concat_strings foldr fst snd].
    by rewrite !append_assoc.
  - rewrite render_emitted. apply concat_strings_elem_of.
    by apply list_elem_of_fmap_2.
Qed.

End render_spec.

(** ** The regeneration cycle *)

Module cycle_props.
Import Go db nagios_config Go_props db_props render_props.

Lemma GetAllHosts_ok (fails : bool) (m : Manager) (hosts : list Host) :
  GetAllHosts fails m = (hosts, None) →
  fails = false ∧ hosts = (GetAllHosts false m).1.
Proof. destruct fails; [done|]. by intros [= <-]. Qed.

Lemma GetAllServices_ok (fails : bool) (m : Manager)
    (services : list Service) :
  GetAllServices fails m = (services, None) →
  fails = false ∧ services = (GetAllServices false m).1.
Proof. destruct fails; [done|]. by intros [= <-]. Qed.

Lemma tempFileName_sibling (g : Generator) :
  filepath_Dir (tempFileName g) = filepath_Dir (finalFileName g)
  ∧ tempFileName g ≠ finalFileName g.
Proof. split; [done|]. unfold tempFileName, finalFileName. by intros [=]. Qed.

(** *** Pruning *)

Lemma prune_eq (g : Generator) (env : Env) (m : Manager) :
  prune g env m
  = (DeleteStaleServices (delete_services_fault env)
       (DeleteStaleHosts (delete_hosts_fault env) m (staleCutoff g env)).1
       (staleCutoff g env)).1.
Proof.
  unfold prune.
  destruct (DeleteStaleHosts _ m _) as [m1 r1]. cbn [fst].
  by destruct (DeleteStaleServices _ m1 _) as [m2 r2].
Qed.

(** Pruning changes nothing when no row is older than the cutoff. *)
Lemma prune_id (g : Generator) (env : Env) (m : Manager) :
  (∀ hn t, hosts m !! hn = Some t → Time_Unix (staleCutoff g env) ≤ t) →
  (∀ k t, services m !! k = Some t → Time_Unix (staleCutoff g env) ≤ t) →
  prune g env m = m.
Proof.
  intros Hh Hs. rewrite prune_eq. destruct m as [hs ss]. simpl in *.
  destruct (delete_hosts_fault env), (delete_services_fault env); simpl;
    rewrite ?(fresh_id _ hs Hh), ?(fresh_id _ ss Hs); done.
Qed.

Lemma staleCutoff_eq (g : Generator) (env : Env) :
  MinInt64 < staleThreshold g → staleThreshold g ≤ MaxInt64 →
  staleCutoff g env = now env - staleThreshold g.
Proof.
  intros Hlo Hhi. unfold staleCutoff, Time_Add.
  rewrite Duration_neg_opp by done. lia.
Qed.

Lemma DeleteStaleHosts_ok (m : Manager) (threshold : Time) :
  (∀ hn t, hosts (DeleteStaleHosts ExecOk m threshold).1 !! hn = Some t ↔
           hosts m !! hn = Some t ∧ Time_Unix threshold ≤ t)
  ∧ services (DeleteStaleHosts ExecOk m threshold).1 = services m
  ∧ (DeleteStaleHosts ExecOk m threshold).2
    = (Z.of_nat (size (hosts m))
       - Z.of_nat (size (hosts (DeleteStaleHosts ExecOk m threshold).1)),
       None).
Proof.
  simpl. split_and!; [|done|].
  - intros hn t. apply fresh_lookup.
  - f_equal. pose proof (stale_fresh_size (Time_Unix threshold) (hosts m)).
    lia.
Qed.

Lemma DeleteStaleServices_ok (m : Manager) (threshold : Time) :
  (∀ k t, services (DeleteStaleServices ExecOk m threshold).1 !! k = Some t ↔
          services m !! k = Some t ∧ Time_Unix threshold ≤ t)
  ∧ hosts (DeleteStaleServices ExecOk m threshold).1 = hosts m
  ∧ (DeleteStaleServices ExecOk m threshold).2
    = (Z.of_nat (size (services m))
       - Z.of_nat
           (size (services (DeleteStaleServices ExecOk m threshold).1)),
       None).
Proof.
  simpl. split_and!; [|done|].
  - intros k t. apply fresh_lookup.
  - f_equal.
    pose proof (stale_fresh_size (Time_Unix threshold) (services m)).
    lia.
Qed.

(** *** Publishing *)

Lemma publish_db (g : Generator) (env : Env) (content : string) (w : World) :
  w_db (r_world (publish g env content w)) = w_db w.
Proof.
  unfold publish.
  destruct (WriteFile _ _ _ _) as [fs1 [e|]]; [done|].
  destruct (Rename _ _ _ _) as [fs2 [e|]]; [|done].
  by destruct (Remove _ _ _) as [fs3 e'].
Qed.

Lemma publish_outcome (g : Generator) (env : Env) (content : string)
    (w : World) :
  r_outcome (publish g env content w) = WriteFailed
  ∨ r_outcome (publish g env content w) = RenameFailed
  ∨ r_outcome (publish g env content w) = Updated.
Proof.
  unfold publish.
  destruct (WriteFile _ _ _ _) as [fs1 [e|]]; [by left|].
  destruct (Rename _ _ _ _) as [fs2 [e|]]; [|by right; right].
  destruct (Remove _ _ _) as [fs3 e']. by right; left.
Qed.

(** The first thing publishing does is write the new content to the
    temporary file. *)
Lemma publish_writes_temp (g : Generator) (env : Env) (content : string)
    (w : World) :
  ∃ rest, r_events (publish g env content w)
          = EvWriteFile (tempFileName g) content :: rest.
Proof.
  unfold publish.
  destruct (WriteFile _ _ _ _) as [fs1 [e|]]; [by eexists|].
  destruct (Rename _ _ _ _) as [fs2 [e|]]; [|by eexists].
  destruct (Remove _ _ _) as [fs3 e']. by eexists.
Qed.

Lemma publish_rename_failed (g : Generator) (env : Env) (content : string)
    (w : World) :
  write_fault env = WriteOk → rename_fails env = true →
  let r := publish g env content w in
  r_outcome r = RenameFailed
  ∧ r_events r = [EvWriteFile (tempFileName g) content;
                  EvRename (tempFileName g) (finalFileName g);
                  EvRemove (tempFileName g)]
  ∧ w_fs (r_world r) !! finalFileName g = w_fs w !! finalFileName g
  ∧ (remove_fails env = false → w_fs (r_world r) !! tempFileName g = None).
Proof.
  intros Hw Hr. unfold publish. rewrite Hw, Hr. simpl.
  destruct (tempFileName_sibling g) as [_ Hne].
  unfold Remove. destruct (remove_fails env); simpl.
  - split_and!; [done|done| |done]. by rewrite lookup_insert_ne.
  - rewrite lookup_insert_eq. simpl. split_and!; [done|done| |].
    + by rewrite lookup_delete_ne, lookup_insert_ne.
    + intros _. apply lookup_delete_eq.
Qed.

Lemma publish_updated (g : Generator) (env : Env) (content : string)
    (w : World) :
  write_fault env = WriteOk → rename_fails env = false →
  let r := publish g env content w in
  r_outcome r = Updated
  ∧ r_events r = [EvWriteFile (tempFileName g) content;
                  EvRename (tempFileName g) (finalFileName g);
                  EvSend (receiver_ready env)]
  ∧ w_fs (r_world r) !! finalFileName g = Some content
  ∧ w_fs (r_world r) !! tempFileName g = None.
Proof.
  intros Hw Hr. unfold publish. rewrite Hw, Hr. simpl.
  destruct (tempFileName_sibling g) as [_ Hne].
  unfold Rename. rewrite lookup_insert_eq. simpl. split_and!; [done|done| |].
  - apply lookup_insert_eq.
  - rewrite lookup_insert_ne by done. apply lookup_delete_eq.
Qed.

(** When publishing ends in [Updated], the final file holds the content. *)
Lemma publish_Updated_final (g : Generator) (env : Env) (content : string)
    (w : World) :
  r_outcome (publish g env content w) = Updated →
  w_fs (r_world (publish g env content w)) !! finalFileName g = Some content.
Proof.
  unfold publish. destruct (write_fault env) eqn:Hw; simpl; [|done|done].
  unfold Rename. destruct (rename_fails env); simpl.
  - by destruct (Remove _ _ _).
  - rewrite lookup_insert_eq. simpl. intros _. apply lookup_insert_eq.
Qed.

(** *** The cycle *)

Lemma generateConfigs_db (g : Generator) (env : Env) (w : World) :
  w_db (r_world (generateConfigs g env w)) = prune g env (w_db w).
Proof.
  unfold generateConfigs.
  destruct (GetAllHosts _ _) as [hosts [e|]]; [done|].
  destruct (GetAllServices _ _) as [services [e|]]; [done|].
  destruct (_ && _); [done|].
  destruct (ReadFile _ _ _) as [existing e].
  destruct (bytes_Equal _ _); [done|]. apply publish_db.
Qed.

(** The cycle once both fetches have succeeded. *)
Lemma generateConfigs_fetched (g : Generator) (env : Env) (w : World)
    (hosts : list Host) (services : list Service) :
  GetAllHosts (get_hosts_fails env) (prune g env (w_db w)) = (hosts, None) →
  GetAllServices (get_services_fails env) (prune g env (w_db w))
  = (services, None) →
  generateConfigs g env w
  = let w' := mkWorld (prune g env (w_db w)) (w_fs w) in
    if bool_decide (length hosts = 0%nat)
       && bool_decide (length services = 0%nat)
    then mkResult w' [] NothingActive
    else if bytes_Equal (render g hosts services)
              (ReadFile (read_fault env) (finalFileName g) (w_fs w)).1
         then mkResult w' [] Identical
         else publish g env (render g hosts services) w'.
Proof.
  intros Hh Hs. unfold generateConfigs. rewrite Hh, Hs. simpl.
  destruct (_ && _); [done|]. by destruct (ReadFile _ _ _).
Qed.

(** The cycle as one case distinction. *)
Lemma generateConfigs_cases (g : Generator) (env : Env) (w : World) :
  generateConfigs g env w
  = if get_hosts_fails env
    then mkResult (mkWorld (prune g env (w_db w)) (w_fs w)) []
                  HostFetchFailed
    else if get_services_fails env
    then mkResult (mkWorld (prune g env (w_db w)) (w_fs w)) []
                  ServiceFetchFailed
    else if bool_decide
              (length (GetAllHosts false (prune g env (w_db w))).1 = 0%nat)
            && bool_decide
                 (length (GetAllServices false (prune g env (w_db w))).1
                  = 0%nat)
    then mkResult (mkWorld (prune g env (w_db w)) (w_fs w)) [] NothingActive
    else if bytes_Equal
              (render g (GetAllHosts false (prune g env (w_db w))).1
                        (GetAllServices false (prune g env (w_db w))).1)
              (ReadFile (read_fault env) (finalFileName g) (w_fs w)).1
    then mkResult (mkWorld (prune g env (w_db w)) (w_fs w)) [] Identical
    else publish g env
           (render g (GetAllHosts false (prune g env (w_db w))).1
                     (GetAllServices false (prune g env (w_db w))).1)
           (mkWorld (prune g env (w_db w)) (w_fs w)).
Proof.
  unfold generateConfigs.
  destruct (get_hosts_fails env); [done|].
  destruct (get_services_fails env); [done|].
  cbn [GetAllHosts GetAllServices fst snd w_fs].
  destruct (_ && _); [done|]. by destruct (ReadFile _ _ _).
Qed.

(** The cycle is skipped as having nothing active exactly when both
    fetches succeed and both tables are empty after pruning. *)
Lemma generateConfigs_NothingActive (g : Generator) (env : Env) (w : World) :
  r_outcome (generateConfigs g env w) = NothingActive ↔
  get_hosts_fails env = false ∧ get_services_fails env = false
  ∧ hosts (prune g env (w_db w)) = ∅
  ∧ services (prune g env (w_db w)) = ∅.
Proof.
  rewrite generateConfigs_cases.
  rewrite <- GetAllHosts_empty, <- GetAllServices_empty.
  destruct (get_hosts_fails env); [simpl; naive_solver|].
  destruct (get_services_fails env); [simpl; naive_solver|].
  destruct (GetAllHosts false _).1 as [|h hs];
    destruct (GetAllServices false _).1 as [|s ss]; cbn [length];
    rewrite ?bool_decide_eq_true_2, ?bool_decide_eq_false_2 by done;
    cbn [andb]; try (simpl; naive_solver).
  all: destruct (bytes_Equal _ _); [simpl; naive_solver|].
  all: match goal with
       | |- context [publish ?g ?e ?c ?w'] =>
           destruct (publish_outcome g e c w') as [Ho|[Ho|Ho]]; rewrite Ho
       end; naive_solver.
Qed.

(** A cycle that got as far as publishing ran [publish] on the render of
    the fetched rows. *)
Lemma generateConfigs_publishing (g : Generator) (env : Env) (w : World) :
  r_outcome (generateConfigs g env w) = WriteFailed
  ∨ r_outcome (generateConfigs g env w) = RenameFailed
  ∨ r_outcome (generateConfigs g env w) = Updated →
  generateConfigs g env w
  = publish g env
      (render g (GetAllHosts false (prune g env (w_db w))).1
                (GetAllServices false (prune g env (w_db w))).1)
      (mkWorld (prune g env (w_db w)) (w_fs w)).
Proof.
  rewrite generateConfigs_cases.
  destruct (get_hosts_fails env); [simpl; naive_solver|].
  destruct (get_services_fails env); [simpl; naive_solver|].
  destruct (_ && _); [simpl; naive_solver|].
  destruct (bytes_Equal _ _); [simpl; naive_solver|]. done.
Qed.

End cycle_props.

(** ** What the specification says of the cycle *)

Module cycle_spec.
Import Go db nagios_config Go_props db_props render_props cycle_props.

(** The cycle that finds the published file equal to its render. *)
Lemma generateConfigs_identical (g : Generator) (env : Env) (w : World) :
  let m := prune g env (w_db w) in
  let hosts := (GetAllHosts false m).1 in
  let services := (GetAllServices false m).1 in
  get_hosts_fails env = false → get_services_fails env = false →
  bool_decide (length hosts = 0%nat) && bool_decide (length services = 0%nat)
  = false →
  (ReadFile (read_fault env) (finalFileName g) (w_fs w)).1
  = render g hosts services →
  generateConfigs g env w = mkResult (mkWorld m (w_fs w)) [] Identical.
Proof.
  intros m hosts services Hh Hs Hne Hread.
  rewrite (generateConfigs_fetched g env w hosts services);
    [|by rewrite Hh|by rewrite Hs].
  cbn zeta. fold m. rewrite Hne, Hread.
  unfold bytes_Equal. by rewrite bool_decide_eq_true_2.
Qed.

(** After a cycle that updated the file, or found it identical to its
    render, the published file reads as the render of the pruned ledger. *)
Lemma generateConfigs_leaves_render (g : Generator) (env : Env) (w : World) :
  r_outcome (generateConfigs g env w) = Updated
  ∨ (r_outcome (generateConfigs g env w) = Identical
     ∧ read_fault env = ReadOk) →
  bool_decide (length (GetAllHosts false (prune g env (w_db w))).1 = 0%nat)
  && bool_decide
       (length (GetAllServices false (prune g env (w_db w))).1 = 0%nat)
  = false
  ∧ (ReadFile ReadOk (finalFileName g)
       (w_fs (r_world (generateConfigs g env w)))).1
    = render g (GetAllHosts false (prune g env (w_db w))).1
               (GetAllServices false (prune g env (w_db w))).1.
Proof.
  rewrite generateConfigs_cases.
  destruct (get_hosts_fails env); [simpl; naive_solver|].
  destruct (get_services_fails env); [simpl; naive_solver|].
  destruct (_ && _); [simpl; naive_solver|].
  unfold bytes_Equal. case_bool_decide as Heq.
  - intros [?|[_ Hrf]]; [done|]. split; [done|].
    cbn [r_world w_fs]. by rewrite Heq, Hrf.
  - intros [Hup|[Hid _]].
    + split; [done|]. apply publish_Updated_final in Hup.
      unfold ReadFile. by rewrite Hup.
    + destruct (publish_outcome g env
        (render g (GetAllHosts false (prune g env (w_db w))).1
                  (GetAllServices false (prune g env (w_db w))).1)
        (mkWorld (prune g env (w_db w)) (w_fs w))) as [Ho|[Ho|Ho]];
        rewrite Ho in Hid; discriminate.
Qed.

(** Over an empty ledger nothing is rendered: a second cycle over the
    unchanged empty ledger is skipped like the first. *)
Lemma second_cycle_nothing_active (g1 g2 : Generator) (env1 env2 : Env)
    (w : World) :
  r_outcome (generateConfigs g1 env1 w) = NothingActive →
  prune g2 env2 (w_db (r_world (generateConfigs g1 env1 w)))
  = w_db (r_world (generateConfigs g1 env1 w)) →
  get_hosts_fails env2 = false → get_services_fails env2 = false →
  generateConfigs g2 env2 (r_world (generateConfigs g1 env1 w))
  = mkResult (r_world (generateConfigs g1 env1 w)) [] NothingActive.
Proof.
  intros Hout Hprune Hh Hs.
  apply generateConfigs_NothingActive in Hout as (_ & _ & Hhosts & Hservices).
  rewrite <- generateConfigs_db in Hhosts, Hservices.
  apply GetAllHosts_empty in Hhosts. apply GetAllServices_empty in Hservices.
  rewrite generateConfigs_cases, Hh, Hs, Hprune, Hhosts, Hservices.
  by destruct (r_world _).
Qed.

(** C1. A render depends on the generator through its template parameters
    only, so a second cycle with the same parameters over an unchanged
    ledger renders the bytes the first one left in the published file; it
    returns at the comparison: no write, no rename, no signal, the world
    as the first cycle left it. *)
Theorem second_cycle_writes_nothing (g1 g2 : Generator) (env1 env2 : Env)
    (w : World) :
  let r1 := generateConfigs g1 env1 w in
  let w1 := r_world r1 in
  let r2 := generateConfigs g2 env2 w1 in
  render_params g2 = render_params g1 →
  OutputDir (config g2) = OutputDir (config g1) →
  r_outcome r1 = Updated
  ∨ (r_outcome r1 = Identical ∧ read_fault env1 = ReadOk) →
  prune g2 env2 (w_db w1) = w_db w1 →
  get_hosts_fails env2 = false → get_services_fails env2 = false →
  read_fault env2 = ReadOk →
  render g2 (GetAllHosts false (w_db w1)).1 (GetAllServices false (w_db w1)).1
  = render g1 (GetAllHosts false (prune g1 env1 (w_db w))).1
              (GetAllServices false (prune g1 env1 (w_db w))).1
  ∧ r2 = mkResult w1 [] Identical.
Proof.
  intros r1 w1 r2 Hp Hdir Hout Hprune Hh Hs Hread.
  assert (Hdb : w_db w1 = prune g1 env1 (w_db w))
    by apply generateConfigs_db.
  assert (Hrender :
    render g2 (GetAllHosts false (w_db w1)).1
              (GetAllServices false (w_db w1)).1
    = render g1 (GetAllHosts false (prune g1 env1 (w_db w))).1
                (GetAllServices false (prune g1 env1 (w_db w))).1).
  { rewrite Hdb. by apply render_params_ext. }
  split; [exact Hrender|].
  destruct (generateConfigs_leaves_render g1 env1 w Hout) as [Hne Hfile].
  fold r1 in Hfile. fold w1 in Hfile. rewrite <- Hdb in Hne.
  subst r2. rewrite generateConfigs_identical; rewrite ?Hprune; try done.
  - by destruct w1.
  - rewrite Hread, Hrender.
    assert (Hfinal : finalFileName g2 = finalFileName g1)
      by (unfold finalFileName; by rewrite Hdir).
    by rewrite Hfinal.
Qed.

(** C2. A cycle that gets to publish first writes the rendered bytes to
    the temporary file, a sibling of the final file, and, when that write
    succeeds, next renames the temporary file onto the final one.  When
    the rename fails the cycle removes the temporary file and returns: no
    signal is sent and the final file holds what it held before (the
    temporary file is gone when the removal succeeds).  When the rename
    succeeds the final file holds the rendered bytes. *)
Theorem publish_writes_temp_then_renames (g : Generator) (env : Env)
    (w : World) :
  let r := generateConfigs g env w in
  let m := prune g env (w_db w) in
  let content := render g (GetAllHosts false m).1 (GetAllServices false m).1 in
  r_outcome r = WriteFailed ∨ r_outcome r = RenameFailed
  ∨ r_outcome r = Updated →
  filepath_Dir (tempFileName g) = filepath_Dir (finalFileName g)
  ∧ tempFileName g ≠ finalFileName g
  ∧ (∃ rest, r_events r = EvWriteFile (tempFileName g) content :: rest)
  ∧ (write_fault env = WriteOk →
     ∃ rest, r_events r
             = EvWriteFile (tempFileName g) content
               :: EvRename (tempFileName g) (finalFileName g) :: rest)
  ∧ (write_fault env = WriteOk → rename_fails env = true →
     r_outcome r = RenameFailed
     ∧ r_events r = [EvWriteFile (tempFileName g) content;
                     EvRename (tempFileName g) (finalFileName g);
                     EvRemove (tempFileName g)]
     ∧ w_fs (r_world r) !! finalFileName g = w_fs w !! finalFileName g
     ∧ (remove_fails env = false →
        w_fs (r_world r) !! tempFileName g = None))
  ∧ (write_fault env = WriteOk → rename_fails env = false →
     r_outcome r = Updated
     ∧ w_fs (r_world r) !! finalFileName g = Some content)
  ∧ (r_outcome r ≠ Updated →
     w_fs (r_world r) !! finalFileName g = w_fs w !! finalFileName g).
Proof.
  intros r m content Hout.
  pose proof (generateConfigs_publishing g env w Hout) as Hr.
  fold r m in Hr. fold content in Hr.
  destruct (tempFileName_sibling g) as [Hdir Hne].
  split_and!; try done.
  - rewrite Hr. apply publish_writes_temp.
  - intros Hw. rewrite Hr. destruct (rename_fails env) eqn:Hrn.
    + destruct (publish_rename_failed g env content (mkWorld m (w_fs w))
                  Hw Hrn) as (_ & -> & _). by eexists.
    + destruct (publish_updated g env content (mkWorld m (w_fs w))
                  Hw Hrn) as (_ & -> & _). by eexists.
  - intros Hw Hrn. rewrite Hr.
    apply (publish_rename_failed g env content (mkWorld m (w_fs w)) Hw Hrn).
  - intros Hw Hrn. rewrite Hr.
    destruct (publish_updated g env content (mkWorld m (w_fs w)) Hw Hrn)
      as (? & _ & ? & _). done.
  - rewrite Hr. unfold publish.
    destruct (write_fault env) eqn:Hw; simpl.
    + destruct (rename_fails env) eqn:Hrn; simpl.
      * intros _. unfold Remove. destruct (remove_fails env); simpl.
        -- by rewrite lookup_insert_ne.
        -- rewrite lookup_insert_eq. simpl.
           by rewrite lookup_delete_ne, lookup_insert_ne.
      * rewrite lookup_insert_eq. simpl. done.
    + done.
    + intros _. by rewrite lookup_insert_ne.
Qed.

(** C5. A successful stale deletion keeps exactly the rows whose
    last_seen is not less than the cutoff, both in whole seconds
    ([threshold.Unix()]), leaves the other table alone, and returns the
    number of rows it removed; the cycle prunes both tables with the
    cutoff [now - staleThreshold] before it fetches. *)
Theorem stale_rows_are_pruned (g : Generator) (env : Env) (w : World)
    (m : Manager) (threshold : Time) :
  MinInt64 < staleThreshold g → staleThreshold g ≤ MaxInt64 →
  let rh := DeleteStaleHosts ExecOk m threshold in
  let rs := DeleteStaleServices ExecOk m threshold in
  (∀ hn t, hosts rh.1 !! hn = Some t ↔
           hosts m !! hn = Some t ∧ ¬ t < Time_Unix threshold)
  ∧ services rh.1 = services m
  ∧ rh.2 = (Z.of_nat (size (hosts m)) - Z.of_nat (size (hosts rh.1)), None)
  ∧ (∀ k t, services rs.1 !! k = Some t ↔
            services m !! k = Some t ∧ ¬ t < Time_Unix threshold)
  ∧ hosts rs.1 = hosts m
  ∧ rs.2 = (Z.of_nat (size (services m)) - Z.of_nat (size (services rs.1)),
            None)
  ∧ staleCutoff g env = now env - staleThreshold g
  ∧ w_db (r_world (generateConfigs g env w))
    = (DeleteStaleServices (delete_services_fault env)
         (DeleteStaleHosts (delete_hosts_fault env) (w_db w)
            (now env - staleThreshold g)).1
         (now env - staleThreshold g)).1.
Proof.
  intros Hlo Hhi rh rs.
  destruct (DeleteStaleHosts_ok m threshold) as (Hh1 & Hh2 & Hh3).
  destruct (DeleteStaleServices_ok m threshold) as (Hs1 & Hs2 & Hs3).
  split_and!; try done.
  - intros hn t. unfold rh. rewrite Hh1.
    split; (intros [? ?]; split; [done|lia]).
  - intros k t. unfold rs. rewrite Hs1.
    split; (intros [? ?]; split; [done|lia]).
  - by apply staleCutoff_eq.
  - rewrite generateConfigs_db, prune_eq. by rewrite staleCutoff_eq.
Qed.

(** C6, as the code has it. The cycle returns at the fetching step
    exactly when the host fetch or the service fetch fails, one failure
    being enough; it then writes nothing, sends no signal and leaves the
    files alone. *)
Theorem fetch_failure_aborts_cycle (g : Generator) (env : Env) (w : World) :
  let r := generateConfigs g env w in
  (r_outcome r = HostFetchFailed ↔ get_hosts_fails env = true)
  ∧ (r_outcome r = ServiceFetchFailed ↔
     get_hosts_fails env = false ∧ get_services_fails env = true)
  ∧ (r_outcome r = HostFetchFailed ∨ r_outcome r = ServiceFetchFailed →
     r_events r = [] ∧ w_fs (r_world r) = w_fs w).
Proof.
  intros r. subst r. rewrite generateConfigs_cases.
  destruct (get_hosts_fails env); [simpl; naive_solver|].
  destruct (get_services_fails env); [simpl; naive_solver|].
  destruct (_ && _); [simpl; naive_solver|].
  destruct (bytes_Equal _ _); [simpl; naive_solver|].
  destruct (publish_outcome g env
    (render g (GetAllHosts false (prune g env (w_db w))).1
              (GetAllServices false (prune g env (w_db w))).1)
    (mkWorld (prune g env (w_db w)) (w_fs w))) as [Ho|[Ho|Ho]];
    rewrite Ho; naive_solver.
Qed.

(** C7. When both fetches succeed with no row the cycle returns before
    it renders: no write, no rename, no removal, no signal, and the file
    system, the published file in it, is what it was. *)
Theorem empty_ledger_skips_cycle (g : Generator) (env : Env) (w : World) :
  GetAllHosts (get_hosts_fails env) (prune g env (w_db w)) = ([], None) →
  GetAllServices (get_services_fails env) (prune g env (w_db w))
  = ([], None) →
  let r := generateConfigs g env w in
  r_outcome r = NothingActive
  ∧ r_events r = []
  ∧ w_fs (r_world r) = w_fs w
  ∧ w_fs (r_world r) !! finalFileName g = w_fs w !! finalFileName g.
Proof.
  intros Hh Hs r. subst r.
  by rewrite (generateConfigs_fetched g env w [] []).
Qed.

(** C10. When the host fetch returns no row and the service fetch at
    least one, the cycle is not skipped and renders no byte.  Without a
    published file it returns at the comparison and writes nothing; with
    a non-empty published file that it can read, write and rename, it
    replaces the file by an empty one and tries to send the reload
    signal, which is delivered when the receiver is ready. *)
Theorem orphans_only_render_empty (g : Generator) (env : Env) (w : World)
    (s : Service) (services : list Service) :
  GetAllHosts (get_hosts_fails env) (prune g env (w_db w)) = ([], None) →
  GetAllServices (get_services_fails env) (prune g env (w_db w))
  = (s :: services, None) →
  let r := generateConfigs g env w in
  let w' := mkWorld (prune g env (w_db w)) (w_fs w) in
  render g [] (s :: services) = EmptyString
  ∧ (w_fs w !! finalFileName g = None → r = mkResult w' [] Identical)
  ∧ (∀ old, w_fs w !! finalFileName g = Some old → old ≠ EmptyString →
            read_fault env = ReadOk →
            r = publish g env EmptyString w'
            ∧ (write_fault env = WriteOk → rename_fails env = false →
               r_outcome r = Updated
               ∧ r_events r = [EvWriteFile (tempFileName g) EmptyString;
                               EvRename (tempFileName g) (finalFileName g);
                               EvSend (receiver_ready env)]
               ∧ w_fs (r_world r) !! finalFileName g = Some EmptyString)).
Proof.
  intros Hh Hs r w'. subst r.
  rewrite (generateConfigs_fetched g env w [] (s :: services) Hh Hs).
  cbn zeta. fold w'. cbn [length].
  rewrite (bool_decide_eq_false_2 (S (length services) = 0%nat)) by done.
  rewrite andb_false_r.
  assert (Hrender : render g [] (s :: services) = EmptyString) by done.
  rewrite Hrender. split_and!; [done| |].
  - intros Hnone. unfold ReadFile. by rewrite Hnone.
  - intros old Hold Hne Hread. unfold ReadFile. rewrite Hold, Hread.
    cbn [fst]. unfold bytes_Equal.
    rewrite bool_decide_eq_false_2 by congruence.
    split; [done|]. intros Hw Hrn.
    destruct (publish_updated g env EmptyString w' Hw Hrn)
      as (? & ? & ? & _). done.
Qed.

End cycle_spec.

(** ** The properties on the small installation *)

Module instances.
Import Go db nagios_config examples.

(** The default stale threshold of six hours is 21600 whole seconds; a
    second and a half is one. *)
Example freshness_threshold_default :
  int_of_float64 (Duration_Seconds (staleThreshold gen)) = 21600
  ∧ int_of_float64 (Duration_Seconds 1500000000) = 1.
Proof. by vm_compute. Qed.

(** [Seconds] goes through [float64]: 16777216.999999999s is nearer to
    16777217 than to any other [float64]. *)
Example freshness_threshold_rounding :
  int_of_float64 (Duration_Seconds (16777216 * Second + 999999999))
  = 16777217.
Proof. by vm_compute. Qed.

(** A host reported at second 100090 and then, out of order, at second
    100020 is stored with the earlier second. *)
Example out_of_order_update :
  hosts (UpdateHost false
           (UpdateHost false nothing "web1" (time_Unix 100090 0)).1
           "web1" (time_Unix 100020 0)).1 !! "web1"
  = Some 100020.
Proof. by vm_compute. Qed.

(** The pruning example of the specification: at second 200000, with a
    threshold of six hours, the host last seen a second before the cutoff
    goes and the host last seen a second after it stays. *)
Example pruning_example :
  let m := mkManager (<["late" := 200000 - 21600 - 1]>
                        (<["timely" := 200000 - 21600 + 1]> ∅)) ∅ in
  let env := mkEnv (time_Unix 200000 0) ExecOk ExecOk false false ReadOk
                   WriteOk false false true in
  hosts (prune gen env m) = <["timely" := 200000 - 21600 + 1]> ∅
  ∧ DeleteStaleHosts ExecOk m (staleCutoff gen env)
    = (mkManager (<["timely" := 200000 - 21600 + 1]> ∅) ∅, (1, None)).
Proof. by vm_compute. Qed.

(** Stale deletion compares whole seconds: with the cutoff half a second
    into second 78500, a row last seen in second 78500 stays and a row
    last seen in second 78499 goes. *)
Example cutoff_second_resolution :
  let m := mkManager (<["edge" := 78500]> (<["gone" := 78499]> ∅)) ∅ in
  staleCutoff gen (quiet 100100) = time_Unix 78500 500000000
  ∧ hosts (prune gen (quiet 100100) m) = <["edge" := 78500]> ∅.
Proof. by vm_compute. Qed.

(** C1 on the installation: the first cycle publishes, a second one half
    a minute later, from a generator with another period, does nothing. *)
Lemma second_cycle_writes_nothing_witness :
  let r1 := generateConfigs gen (quiet 100100) fresh_install in
  r_outcome r1 = Updated
  ∧ generateConfigs gen' (quiet 100130) (r_world r1)
    = mkResult (r_world r1) [] Identical.
Proof.
  cbn zeta. split; [by vm_compute|].
  apply (cycle_spec.second_cycle_writes_nothing
           gen gen' (quiet 100100) (quiet 100130) fresh_install).
  - by vm_compute.
  - reflexivity.
  - left. by vm_compute.
  - by vm_compute.
  - reflexivity.
  - reflexivity.
  - reflexivity.
Defined.

(** C2 on the installation: the rename fails, the old published file
    stays and the temporary file is removed. *)
Lemma publish_writes_temp_then_renames_witness :
  let r := generateConfigs gen (rename_fails_at 100100) running in
  r_outcome r = RenameFailed
  ∧ w_fs (r_world r) !! published = Some old_config
  ∧ w_fs (r_world r) !! tempFileName gen = None.
Proof.
  cbn zeta.
  destruct (cycle_spec.publish_writes_temp_then_renames
              gen (rename_fails_at 100100) running)
    as (_ & _ & _ & _ & Hfail & _).
  - right. left. by vm_compute.
  - destruct Hfail as (Hout & _ & Hfinal & Htemp);
      [reflexivity|reflexivity|].
    split_and!; [exact Hout| |by apply Htemp].
    etransitivity; [exact Hfinal|]. by vm_compute.
Defined.

(** C4 on the installation: the service of [ghost] is fetched and not
    written. *)
Lemma orphan_service_omitted_witness :
  mkService "ghost" "PING" (time_Unix 100070 0)
    ∈ (GetAllServices false ledger).1
  ∧ ServiceDef (mkService "ghost" "PING" (time_Unix 100070 0))
    ∉ emitted (GetAllHosts false ledger).1 (GetAllServices false ledger).1.
Proof.
  destruct (render_spec.orphan_service_omitted
              gen ledger "ghost" "PING" 100070)
    as (Hin & _ & _ & Hout & _).
  - by vm_compute.
  - by vm_compute.
  - by split.
Defined.

(** C5 on the installation. *)
Lemma stale_rows_are_pruned_witness :
  MinInt64 < staleThreshold gen ∧ staleThreshold gen ≤ MaxInt64
  ∧ (DeleteStaleHosts ExecOk ledger (time_Unix 100060 0)).2
    = (Z.of_nat (size (hosts ledger))
       - Z.of_nat
           (size (hosts
                    (DeleteStaleHosts ExecOk ledger
                       (time_Unix 100060 0)).1)),
       None)
  ∧ staleCutoff gen (quiet 100100) = now (quiet 100100) - staleThreshold gen.
Proof.
  assert (Hlo : MinInt64 < staleThreshold gen) by by vm_compute.
  assert (Hhi : staleThreshold gen ≤ MaxInt64) by by vm_compute.
  destruct (cycle_spec.stale_rows_are_pruned
              gen (quiet 100100) running ledger (time_Unix 100060 0)
              Hlo Hhi)
    as (_ & _ & Hcount & _ & _ & _ & Hcutoff & _).
  by split_and!.
Defined.

(** C7 on the installation: with both tables empty the old published
    file stays. *)
Lemma empty_ledger_skips_cycle_witness :
  r_outcome (generateConfigs gen (quiet 100100) emptied) = NothingActive
  ∧ r_events (generateConfigs gen (quiet 100100) emptied) = []
  ∧ w_fs (r_world (generateConfigs gen (quiet 100100) emptied))
    = w_fs emptied
  ∧ w_fs (r_world (generateConfigs gen (quiet 100100) emptied))
      !! finalFileName gen
    = w_fs emptied !! finalFileName gen.
Proof.
  apply (cycle_spec.empty_ledger_skips_cycle gen (quiet 100100) emptied);
    by vm_compute.
Defined.

(** C9 on the installation: the block of [web1]/[HTTP], with a
    freshness threshold of 21600 seconds. *)
Lemma service_block_is_passive_with_freshness_witness :
  block_text gen (ServiceDef (mkService "web1" "HTTP" (time_Unix 100090 0)))
  = object_definition "service" 24
      (passive_service_directives "generic-service" 21600
         (mkService "web1" "HTTP" (time_Unix 100090 0))).
Proof.
  destruct (render_spec.service_block_is_passive_with_freshness
              gen (GetAllHosts false ledger).1 (GetAllServices false ledger).1
              (mkService "web1" "HTTP" (time_Unix 100090 0)))
    as [Htext _].
  - vm_compute. repeat constructor.
  - exact Htext.
Defined.

(** C10 on the installation: with orphan services only, the old published
    file is replaced by an empty one and the signal is sent. *)
Lemma orphans_only_render_empty_witness :
  let r := generateConfigs gen (quiet 100100) only_orphans in
  r_outcome r = Updated
  ∧ r_events r = [EvWriteFile (tempFileName gen) EmptyString;
                  EvRename (tempFileName gen) (finalFileName gen);
                  EvSend true]
  ∧ w_fs (r_world r) !! finalFileName gen = Some EmptyString.
Proof.
  cbn zeta.
  destruct (cycle_spec.orphans_only_render_empty
              gen (quiet 100100) only_orphans
              (mkService "ghost" "PING" (time_Unix 100070 0)) [])
    as (_ & _ & Hold).
  - by vm_compute.
  - by vm_compute.
  - destruct (Hold old_config) as [_ Hpub]; [by vm_compute|done|done|].
    by apply Hpub.
Defined.

(** C6 as section 4.1 of the specification states it fails.  With two hosts in the ledger and
    a published file that differs from their render, a cycle in which
    only the service fetch fails returns at the fetching step and does
    nothing, where a cycle whose service fetch returns no row publishes
    the two host blocks; and a cycle in which only the host fetch fails
    returns at the fetching step as well. *)
Lemma single_fetch_failure_aborts_cycle :
  get_hosts_fails (services_fetch_fails 100100) = false
  ∧ get_services_fails (services_fetch_fails 100100) = true
  ∧ generateConfigs gen (services_fetch_fails 100100) running
    = mkResult running [] ServiceFetchFailed
  ∧ (GetAllServices false (w_db no_services)).1 = []
  ∧ r_outcome (generateConfigs gen (quiet 100100) no_services) = Updated
  ∧ get_hosts_fails (hosts_fetch_fails 100100) = true
  ∧ get_services_fails (hosts_fetch_fails 100100) = false
  ∧ generateConfigs gen (hosts_fetch_fails 100100) running
    = mkResult running [] HostFetchFailed.
Proof. by vm_compute. Qed.

End instances.
